(** * Currency unit conversions of [util.conversion] and [util.stellar_units]

    A shallow embedding of the string-driven fixed-point arithmetic of
    [src/util/conversion.py] and of [stroops_to_units] of
    [src/util/stellar_units.py], with the Python built-ins the code relies
    on ([str], [int], [float], [round], slicing, [split], [lstrip],
    [rstrip], [format] with a fill and a width), followed by the properties
    of the conversions. *)

From Stdlib Require Import ZArith Ascii String List Bool Lia.
Import ListNotations.
Local Open Scope char_scope.
Local Open Scope Z_scope.

(** ** Exceptions *)

Inductive exn : Type :=
| TypeError
| ValueError
| IndexError
| ZeroDivisionError
| OverflowError.

Inductive result (A : Type) : Type :=
| Ok (a : A)
| Raise (e : exn).

Arguments Ok {A} a.
Arguments Raise {A} e.

Definition bind {A B : Type} (r : result A) (k : A -> result B) : result B :=
  match r with
  | Ok a => k a
  | Raise e => Raise e
  end.

Notation "x <- r ;; k" := (bind r (fun x => k))
  (at level 61, r at next level, right associativity).

(** ** Python values

    A [str] is a list of characters with code points below 256; an [int] is
    unbounded, and so are the conversions between [int] and [str] (no limit
    on the number of digits).  [pyval] has the values the type guards
    of the conversions tell apart: an [int], a [bool] (for which
    [isinstance(_, int)] holds too), a [str], and a value of any other type
    (float, None, list, ...), of which the code only sees the type. *)

Definition str : Type := list ascii.

Definition lit (s : string) : str := list_ascii_of_string s.

Inductive pyval : Type :=
| PInt (z : Z)
| PBool (b : bool)
| PStr (s : str)
| POther (type_name : string).

(** A float: not-a-number, an infinity, or the finite value
    [(-1)^neg * m * 2^e]. *)
Inductive pyfloat : Type :=
| FNan
| FInf (neg : bool)
| FFinite (neg : bool) (m e : Z).

Module Py.

Definition isinstance_str (v : pyval) : bool :=
  match v with PStr _ => true | _ => false end.

Definition isinstance_int (v : pyval) : bool :=
  match v with PInt _ | PBool _ => true | _ => false end.

Definition isinstance_bool (v : pyval) : bool :=
  match v with PBool _ => true | _ => false end.

(** [len(s)] *)
Definition len (s : str) : Z := Z.of_nat (length s).

(** [c in s] for a one-character [c] *)
Definition contains (c : ascii) (s : str) : bool :=
  existsb (Ascii.eqb c) s.

Definition str_eqb (s t : str) : bool :=
  if list_eq_dec ascii_dec s t then true else false.

(** [s.split(sep)] for a one-character separator: never an empty list. *)
Fixpoint split (sep : ascii) (s : str) : list str :=
  match s with
  | [] => [[]]
  | c :: r =>
      if Ascii.eqb c sep then [] :: split sep r
      else match split sep r with
           | p :: ps => (c :: p) :: ps
           | [] => [[c]]
           end
  end.

(** [a, b = parts]: a ValueError unless there are exactly two. *)
Definition unpack2 (parts : list str) : result (str * str) :=
  match parts with
  | [a; b] => Ok (a, b)
  | _ => Raise ValueError
  end.

(** [parts[i]] for [i >= 0] *)
Definition index (parts : list str) (i : nat) : result str :=
  match nth_error parts i with
  | Some p => Ok p
  | None => Raise IndexError
  end.

(** The position a slice bound [k] denotes in a sequence of [n] items: a
    negative bound counts from the end, and bounds are clamped. *)
Definition slice_bound (n : nat) (k : Z) : nat :=
  if k <? 0 then Z.to_nat (Z.of_nat n + k) else Z.to_nat k.

(** [s[:k]] *)
Definition slice_to (s : str) (k : Z) : str :=
  firstn (slice_bound (length s) k) s.

(** [s[k:]] *)
Definition slice_from (s : str) (k : Z) : str :=
  skipn (slice_bound (length s) k) s.

(** [s * k]: the empty string for [k <= 0]. *)
Definition str_mul (s : str) (k : Z) : str :=
  concat (repeat s (Z.to_nat k)).

(** [s or d] *)
Definition str_or (s d : str) : str :=
  match s with
  | [] => d
  | _ => s
  end.

(** [s.lstrip(c)] and [s.rstrip(c)] for a one-character [c] *)
Fixpoint lstrip (c : ascii) (s : str) : str :=
  match s with
  | [] => []
  | x :: r => if Ascii.eqb x c then lstrip c r else s
  end.

Definition rstrip (c : ascii) (s : str) : str :=
  rev (lstrip c (rev s)).

(** [format(s, "<0w")] and [format(s, "0>w")] of a string [s], the width
    [w] being substituted as a decimal numeral: a negative width leaves
    ["-"] in the format specifier, which is invalid. *)
Inductive align : Type := AlignLeft | AlignRight.

Definition format_fill0 (a : align) (s : str) (width : Z) : result str :=
  if width <? 0 then Raise ValueError
  else
    let pad := repeat "0" (Z.to_nat (width - len s)) in
    Ok (match a with
        | AlignLeft => s ++ pad
        | AlignRight => pad ++ s
        end).

(** *** Decimal numerals *)

Definition is_digit (c : ascii) : bool :=
  let n := nat_of_ascii c in (48 <=? n)%nat && (n <=? 57)%nat.

Definition digit_val (c : ascii) : Z := Z.of_nat (nat_of_ascii c) - 48.

Definition digit_char (d : Z) : ascii := ascii_of_nat (48 + Z.to_nat d).

(** The number a string of digits denotes, most significant digit first. *)
Definition dec_value (s : str) : Z :=
  fold_left (fun acc c => 10 * acc + digit_val c) s 0.

Fixpoint digits_acc (fuel : nat) (n : Z) (acc : str) : str :=
  let acc' := digit_char (n mod 10) :: acc in
  match fuel with
  | O => acc'
  | S f => if n <? 10 then acc' else digits_acc f (n / 10) acc'
  end.

(** The digits of [n >= 0]; [n < 2 * 2^log2 n] bounds their number. *)
Definition digits_of (n : Z) : str :=
  digits_acc (Z.to_nat (Z.log2 n)) n [].

(** [str(z)] of an int *)
Definition str_of_int (z : Z) : str :=
  if z <? 0 then "-" :: digits_of (- z) else digits_of z.

(** Blanks skipped by [int] and [float] around a numeral: tab to carriage
    return, the space, and above 127 the next-line and no-break-space
    characters. *)
Definition is_space (c : ascii) : bool :=
  let n := nat_of_ascii c in
  ((9 <=? n)%nat && (n <=? 13)%nat) || (n =? 32)%nat
  || (n =? 133)%nat || (n =? 160)%nat.

Fixpoint lstrip_space (s : str) : str :=
  match s with
  | [] => []
  | x :: r => if is_space x then lstrip_space r else s
  end.

Definition strip_space (s : str) : str :=
  rev (lstrip_space (rev (lstrip_space s))).

(** Underscores of a numeral: each one stands between two digits; they are
    dropped.  [prev] is the character before [s]. *)
Fixpoint drop_underscores (prev : option ascii) (s : str) : option str :=
  match s with
  | [] => Some []
  | c :: r =>
      if Ascii.eqb c "_" then
        match prev, r with
        | Some p, n :: _ =>
            if is_digit p && is_digit n then drop_underscores (Some c) r
            else None
        | _, _ => None
        end
      else option_map (cons c) (drop_underscores (Some c) r)
  end.

(** An optional sign. *)
Definition take_sign (s : str) : bool * str :=
  match s with
  | c :: r =>
      if Ascii.eqb c "-" then (true, r)
      else if Ascii.eqb c "+" then (false, r)
      else (false, s)
  | [] => (false, [])
  end.

(** [int(s)] of a string, base ten: blanks around, an optional sign, and
    digits with single underscores between them. *)
Definition int_of_str (s : str) : result Z :=
  let '(neg, body) := take_sign (strip_space s) in
  match drop_underscores None body with
  | Some (d :: ds) =>
      if forallb is_digit (d :: ds)
      then Ok (if neg then - dec_value (d :: ds) else dec_value (d :: ds))
      else Raise ValueError
  | _ => Raise ValueError
  end.

(** *** Floats *)

(** The integer nearest to [a / b], ties to the even one
    ([0 <= a], [0 < b]). *)
Definition rne_div (a b : Z) : Z :=
  let q := a / b in
  let r := a mod b in
  if 2 * r <? b then q
  else if b <? 2 * r then q + 1
  else if Z.even q then q else q + 1.

(** [floor (log2 (n / d))] for [0 < n], [0 < d]. *)
Definition floor_log2_ratio (n d : Z) : Z :=
  let g := Z.log2 n - Z.log2 d in
  let above := if 0 <=? g then d * 2 ^ g <=? n else d <=? n * 2 ^ (- g) in
  if above then g else g - 1.

(** The binary64 number nearest to [n / d], ties to even: a 53-bit
    significand, exponents from -1074, and an infinity from [2^1024]. *)
Definition binary64_of_ratio (neg : bool) (n d : Z) : pyfloat :=
  if n =? 0 then FFinite neg 0 0
  else
    let e := Z.max (floor_log2_ratio n d - 52) (-1074) in
    let m := if 0 <=? e then rne_div n (d * 2 ^ e)
             else rne_div (n * 2 ^ (- e)) d in
    if (971 <? e) || ((e =? 971) && (m =? 2 ^ 53)) then FInf neg
    else FFinite neg m e.

Definition lower (c : ascii) : ascii :=
  let n := nat_of_ascii c in
  if (65 <=? n)%nat && (n <=? 90)%nat then ascii_of_nat (n + 32) else c.

Fixpoint span_digits (s : str) : str * str :=
  match s with
  | c :: r =>
      if is_digit c
      then let '(ds, rest) := span_digits r in (c :: ds, rest)
      else ([], s)
  | [] => ([], [])
  end.

(** The exponent part of a float numeral: empty, or [e] or [E], an
    optional sign and at least one digit. *)
Definition exponent_of (s : str) : option Z :=
  match s with
  | [] => Some 0
  | c :: r =>
      if Ascii.eqb (lower c) "e" then
        let '(neg, ds) := take_sign r in
        match ds with
        | [] => None
        | _ => if forallb is_digit ds
               then Some (if neg then - dec_value ds else dec_value ds)
               else None
        end
      else None
  end.

(** [float(s)] of a string: blanks around, underscores between digits, an
    optional sign, then [inf], [infinity] or [nan] in any case, or digits
    with an optional point and an optional exponent, with a digit before
    or after the point.  The value is rounded to binary64. *)
Definition float_of_str (s : str) : result pyfloat :=
  match drop_underscores None (strip_space s) with
  | None => Raise ValueError
  | Some t =>
      let '(neg, body) := take_sign t in
      let word := map lower body in
      if str_eqb word (lit "inf") || str_eqb word (lit "infinity")
      then Ok (FInf neg)
      else if str_eqb word (lit "nan") then Ok FNan
      else
        let '(ip, rest) := span_digits body in
        let '(fp, rest) :=
          match rest with
          | c :: r => if Ascii.eqb c "." then span_digits r else ([], rest)
          | [] => ([], [])
          end in
        match ip ++ fp, exponent_of rest with
        | _ :: _, Some ex =>
            let e10 := ex - len fp in
            Ok (if 0 <=? e10
                then binary64_of_ratio neg (dec_value (ip ++ fp) * 10 ^ e10) 1
                else binary64_of_ratio neg (dec_value (ip ++ fp)) (10 ^ (- e10)))
        | _, _ => Raise ValueError
        end
  end.

(** [round(x)] of a float, without [ndigits]: the nearest int, ties to
    even. *)
Definition round (x : pyfloat) : result Z :=
  match x with
  | FNan => Raise ValueError
  | FInf _ => Raise OverflowError
  | FFinite neg m e =>
      let r := if 0 <=? e then m * 2 ^ e else rne_div m (2 ^ (- e)) in
      Ok (if neg then - r else r)
  end.

(** [n * v] with an int on the left: a product of ints (a bool counting as
    0 or 1), or the repetition of a string.  For a value of another type
    the product is a TypeError (None, dict) or a value of a type that the
    conversions reject with a TypeError in turn (float, list, tuple). *)
Definition int_mul (n : Z) (v : pyval) : result pyval :=
  match v with
  | PInt z => Ok (PInt (n * z))
  | PBool b => Ok (PInt (n * (if b then 1 else 0)))
  | PStr s => Ok (PStr (str_mul s n))
  | POther _ => Raise TypeError
  end.

(** [a // b] of ints: the floor of the quotient. *)
Definition floordiv (a b : Z) : result Z :=
  if b =? 0 then Raise ZeroDivisionError else Ok (a / b).

(** [try: r except IndexError: h] *)
Definition except_IndexError {A : Type} (r : result A) (h : result A) : result A :=
  match r with
  | Raise IndexError => h
  | _ => r
  end.

End Py.

(** ** [util/conversion.py] *)

Module conversion.
Import Py.

(** Number of decimals after the decimal point in currencies. *)
Definition ETH_DECIMALS : Z := 18.
Definition BTC_DECIMALS : Z := 8.
Definition STELLAR_DECIMALS : Z := 7.
Definition DECIMAL_POINT : ascii := ".".

(** The guard and the [str(amount)] that both conversions start with: a
    TypeError unless [amount] is a string or an int that is not a bool. *)
Definition checked_str (amount : pyval) : result str :=
  if negb (isinstance_str amount)
     && negb (isinstance_int amount && negb (isinstance_bool amount))
  then Raise TypeError
  else match amount with
       | PStr s => Ok s
       | PInt z => Ok (str_of_int z)
       | PBool _ | POther _ => Raise TypeError (* the guard has raised *)
       end.

Definition divisible_to_indivisible (amount : pyval) (decimals : Z) : result Z :=
  amount <- checked_str amount ;;
  parts <- (if contains DECIMAL_POINT amount then
              parts <- unpack2 (split DECIMAL_POINT amount) ;;
              Ok (fst parts, slice_to (snd parts) decimals)
            else Ok (amount, str_mul ["0"] decimals)) ;;
  let integer_part := fst parts in
  let fractional_part := snd parts in
  amount <- (if negb (str_eqb integer_part ["0"]) then
               padded <- format_fill0 AlignLeft fractional_part decimals ;;
               Ok (integer_part ++ padded)
             else
               let striped := lstrip "0" fractional_part in
               let leading_zeros_amount := len fractional_part - len striped in
               let trailing_zeros_amount :=
                 decimals - leading_zeros_amount - len striped in
               Ok (striped ++ str_mul ["0"] trailing_zeros_amount)) ;;
  int_of_str (str_or amount ["0"]).

Definition indivisible_to_divisible (amount : pyval) (decimals : Z) : result str :=
  amount <- checked_str amount ;;
  amount <- (if decimals <? len amount then
               Ok (slice_to amount (- decimals) ++ ["."]
                   ++ slice_from amount (- decimals))
             else
               padded <- format_fill0 AlignRight amount decimals ;;
               Ok (lit "0." ++ padded)) ;;
  parts <- unpack2 (split "." amount) ;;
  let integer_part := fst parts in
  let fractional_part := snd parts in
  let striped := rstrip "0" fractional_part in
  Ok (integer_part ++ ["."] ++ str_or striped ["0"]).

Definition stroops_to_units (amount : pyval) : result str :=
  indivisible_to_divisible amount STELLAR_DECIMALS.

Definition units_to_stroops (amount : pyval) : result Z :=
  divisible_to_indivisible amount STELLAR_DECIMALS.

Definition wei_to_eth (amount : pyval) : result str :=
  indivisible_to_divisible amount ETH_DECIMALS.

Definition eth_to_wei (amount : pyval) : result Z :=
  divisible_to_indivisible amount ETH_DECIMALS.

Definition satoshi_to_btc (amount : pyval) : result str :=
  indivisible_to_divisible amount BTC_DECIMALS.

Definition btc_to_satoshi (amount : pyval) : result Z :=
  divisible_to_indivisible amount BTC_DECIMALS.

(** [round(float(euro_cents))].  The warning logged before the return
    evaluates the same expression and changes nothing else. *)
Definition round_float (s : str) : result Z :=
  x <- float_of_str s ;; round x.

Definition currency_to_euro_cents (amount : pyval) (eur_price : str) (decimals : Z)
  : result Z :=
  fractional <- index (split "." eur_price) 1 ;;
  let price_decimals := len fractional in
  fictitious_units_price <-
    divisible_to_indivisible (PStr eur_price) price_decimals ;;
  fictitious_units_amount <- int_mul fictitious_units_price amount ;;
  euro_cents <-
    indivisible_to_divisible fictitious_units_amount
      (price_decimals + decimals - 2) ;;
  round_float euro_cents.

Definition btc_to_euro_cents (amount : pyval) (eur_price : str) : result Z :=
  currency_to_euro_cents amount eur_price BTC_DECIMALS.

Definition eth_to_euro_cents (amount : pyval) (eur_price : str) : result Z :=
  currency_to_euro_cents amount eur_price ETH_DECIMALS.

Definition xlm_to_euro_cents (amount : pyval) (eur_price : str) : result Z :=
  currency_to_euro_cents amount eur_price STELLAR_DECIMALS.

Definition bul_to_euro_cents (amount : pyval) (eur_price : str) : result Z :=
  currency_to_euro_cents amount eur_price STELLAR_DECIMALS.

Definition euro_cents_to_xlm_stroops (euro_cents_amount : pyval) (xlm_price : str)
  : result Z :=
  price_decimals <-
    except_IndexError
      (fractional <- index (split "." xlm_price) 1 ;; Ok (len fractional))
      (Ok 0) ;;
  fictitious_units_amount <-
    divisible_to_indivisible euro_cents_amount (STELLAR_DECIMALS + price_decimals) ;;
  fictitious_units_price <-
    divisible_to_indivisible (PStr xlm_price) (price_decimals + 2) ;;
  floordiv fictitious_units_amount fictitious_units_price.

Definition euro_cents_to_bul_stroops (euro_cents_amount : pyval) (bul_price : str)
  : result Z :=
  price_decimals <-
    except_IndexError
      (fractional <- index (split "." bul_price) 1 ;; Ok (len fractional))
      (Ok 0) ;;
  fictitious_units_amount <-
    divisible_to_indivisible euro_cents_amount (STELLAR_DECIMALS + price_decimals) ;;
  fictitious_units_price <-
    divisible_to_indivisible (PStr bul_price) (price_decimals + 2) ;;
  floordiv fictitious_units_amount fictitious_units_price.

End conversion.

(** ** [util/stellar_units.py] *)

Module stellar_units.
Import Py.

(** Number of decimals after the decimal point. *)
Definition DEC : Z := 7.

(** What [stroops_to_units] returns: a string, or with
    [numeric_representation] the float read from it. *)
Inductive units : Type :=
| UStr (s : str)
| UFloat (x : pyfloat).

Definition stroops_to_units (amount : pyval) (numeric_representation : bool)
  : result units :=
  if negb (isinstance_int amount) || isinstance_bool amount then Raise TypeError
  else match amount with
       | PInt z =>
           amount <- format_fill0 AlignRight (str_of_int z) DEC ;;
           let amount :=
             if len amount =? DEC then lit "0." ++ amount
             else slice_to amount (- DEC) ++ ["."] ++ slice_from amount (- DEC) in
           if numeric_representation
           then x <- float_of_str amount ;; Ok (UFloat x)
           else Ok (UStr amount)
       | _ => Raise TypeError (* the guard has raised *)
       end.

(** The amount [units_to_stroops] is given: a string, a float, of which the
    code reads nothing but [str(amount)], here [printed], or a value of
    another type. *)
Inductive units_amount : Type :=
| AmountStr (s : str)
| AmountFloat (printed : str)
| AmountOther (type_name : string).

(** What [units_to_stroops] returns: a string of digits, or with
    [numeric_representation] the int read from it. *)
Inductive stroops : Type :=
| StroopsStr (s : str)
| StroopsInt (z : Z).

Definition units_to_stroops (amount : units_amount) (numeric_representation : bool)
  : result stroops :=
  match amount with
  | AmountOther _ => Raise TypeError
  | AmountStr printed | AmountFloat printed =>
      parts <- unpack2 (split "." printed) ;;
      let integer_part := fst parts in
      let fractional_part := snd parts in
      amount <- (if negb (str_eqb integer_part ["0"]) then
                   padded <- format_fill0 AlignLeft fractional_part DEC ;;
                   Ok (integer_part ++ padded)
                 else
                   let striped := lstrip "0" fractional_part in
                   let leading_zeros_amount := len fractional_part - len striped in
                   let trailing_zeros_amount :=
                     DEC - leading_zeros_amount - len striped in
                   Ok (striped ++ str_mul ["0"] trailing_zeros_amount)) ;;
      if numeric_representation
      then z <- int_of_str amount ;; Ok (StroopsInt z)
      else Ok (StroopsStr amount)
  end.

End stellar_units.

(** * Properties *)

(** ** Vocabulary of the statements *)

(** A string of decimal digits (possibly empty). *)
Definition all_digits (s : str) : bool := forallb Py.is_digit s.

(** A string of zero digits only (possibly empty). *)
Definition all_zeros (s : str) : bool := forallb (Ascii.eqb "0") s.

(** [s] right-padded with zero digits to [width] characters. *)
Definition zero_pad_right (s : str) (width : nat) : str :=
  s ++ repeat "0" (width - length s).

(** [s] left-padded with zero digits to [width] characters. *)
Definition zero_pad_left (s : str) (width : nat) : str :=
  repeat "0" (width - length s) ++ s.

(** The amount types the conversions refuse. *)
Definition refused (v : pyval) : Prop :=
  match v with
  | PInt _ | PStr _ => False
  | PBool _ | POther _ => True
  end.

(** Insertion of the decimal point [decimals] digits from the right of the
    zero-padded amount string, then removal of the trailing zeros of the
    fractional part, an emptied fractional part becoming ["0"]: the contract
    of [indivisible_to_divisible] as the specification words it.  The
    amount is padded to [decimals + 1] digits, so that a digit stays before
    the point, as in the specified ["0.0000001"] for 1 and 7 decimals. *)
Definition point_inserted (amount : str) (decimals : nat) : str :=
  let padded := zero_pad_left amount (S decimals) in
  let integer_part := firstn (length padded - decimals) padded in
  let fractional_part := skipn (length padded - decimals) padded in
  let striped := Py.rstrip "0" fractional_part in
  integer_part ++ ["."] ++ match striped with [] => ["0"] | _ => striped end.

(** ** Characters and digit strings *)

Import Py.

Lemma digit_facts (c : ascii) :
  is_digit c = true ->
  Ascii.eqb c "." = false /\ Ascii.eqb c "_" = false /\
  Ascii.eqb c "-" = false /\ Ascii.eqb c "+" = false /\
  is_space c = false /\ 0 <= digit_val c <= 9.
Proof.
  destruct c as [[] [] [] [] [] [] [] []]; vm_compute;
    intuition congruence.
Qed.

Lemma digit_char_spec (d : Z) :
  0 <= d <= 9 -> is_digit (digit_char d) = true /\ digit_val (digit_char d) = d.
Proof.
  intros H.
  assert (E : d = 0 \/ d = 1 \/ d = 2 \/ d = 3 \/ d = 4 \/ d = 5 \/ d = 6 \/
              d = 7 \/ d = 8 \/ d = 9) by lia.
  repeat (destruct E as [-> | E]; [vm_compute; auto |]).
  subst d; vm_compute; auto.
Qed.

Lemma digit_val_zero_iff (c : ascii) :
  is_digit c = true -> (digit_val c = 0 <-> c = "0").
Proof.
  destruct c as [[] [] [] [] [] [] [] []]; vm_compute;
    intuition congruence.
Qed.

Lemma all_digits_app (s t : str) :
  all_digits (s ++ t) = all_digits s && all_digits t.
Proof. apply forallb_app. Qed.

Lemma all_digits_cons (c : ascii) (s : str) :
  all_digits (c :: s) = is_digit c && all_digits s.
Proof. reflexivity. Qed.

Lemma all_digits_repeat0 (n : nat) : all_digits (repeat "0" n) = true.
Proof. induction n; simpl; auto. Qed.

Lemma all_digits_rev (s : str) : all_digits (rev s) = all_digits s.
Proof.
  induction s as [|c s IH]; simpl; auto.
  rewrite all_digits_app, IH. simpl. rewrite andb_true_r. apply andb_comm.
Qed.

Lemma all_digits_firstn (n : nat) (s : str) :
  all_digits s = true -> all_digits (firstn n s) = true.
Proof.
  revert n; induction s as [|c s IH]; intros [|n] H; simpl in *; auto.
  apply andb_true_iff in H as [Hc Hs]. rewrite Hc. simpl. auto.
Qed.

Lemma all_digits_skipn (n : nat) (s : str) :
  all_digits s = true -> all_digits (skipn n s) = true.
Proof.
  revert n; induction s as [|c s IH]; intros [|n] H; simpl in *; auto.
  apply andb_true_iff in H as [Hc Hs]. auto.
Qed.

Lemma all_zeros_cons (c : ascii) (s : str) :
  all_zeros (c :: s) = true <-> c = "0" /\ all_zeros s = true.
Proof.
  change (all_zeros (c :: s)) with (Ascii.eqb "0" c && all_zeros s).
  rewrite andb_true_iff, Ascii.eqb_eq. intuition congruence.
Qed.

Lemma all_zeros_digits (s : str) : all_zeros s = true -> all_digits s = true.
Proof.
  induction s as [|c s IH]; [reflexivity|].
  intros H. apply all_zeros_cons in H as [-> Hs].
  rewrite all_digits_cons, (IH Hs). reflexivity.
Qed.

Lemma all_zeros_repeat (s : str) : all_zeros s = true -> s = repeat "0" (length s).
Proof.
  induction s as [|c s IH]; [reflexivity|].
  intros H. apply all_zeros_cons in H as [-> Hs].
  simpl. f_equal. auto.
Qed.

Lemma len_app (s t : str) : len (s ++ t) = len s + len t.
Proof. unfold len. rewrite length_app. lia. Qed.

Lemma len_cons (c : ascii) (s : str) : len (c :: s) = len s + 1.
Proof. unfold len. simpl length. lia. Qed.

Lemma len_nonneg (s : str) : 0 <= len s.
Proof. unfold len. lia. Qed.

Lemma len_repeat (c : ascii) (n : nat) : len (repeat c n) = Z.of_nat n.
Proof. unfold len. rewrite repeat_length. reflexivity. Qed.

(** ** The value of a digit string *)

Lemma fold_dec_value (s : str) (acc : Z) :
  fold_left (fun a c => 10 * a + digit_val c) s acc
  = acc * 10 ^ len s + dec_value s.
Proof.
  unfold dec_value. revert acc.
  induction s as [|c s IH]; intros acc; cbn [fold_left].
  - change (len []) with 0. rewrite Z.pow_0_r. lia.
  - rewrite IH. rewrite (IH (10 * 0 + digit_val c)).
    rewrite len_cons, Z.pow_add_r by (pose proof (len_nonneg s); lia). lia.
Qed.

Lemma dec_value_cons (c : ascii) (s : str) :
  dec_value (c :: s) = digit_val c * 10 ^ len s + dec_value s.
Proof.
  unfold dec_value at 1. cbn [fold_left]. rewrite fold_dec_value. lia.
Qed.

Lemma dec_value_app (s t : str) :
  dec_value (s ++ t) = dec_value s * 10 ^ len t + dec_value t.
Proof.
  unfold dec_value at 1. rewrite fold_left_app.
  rewrite fold_dec_value. reflexivity.
Qed.

Lemma dec_value_repeat0 (n : nat) : dec_value (repeat "0" n) = 0.
Proof.
  induction n as [|n IH]; [reflexivity|].
  simpl repeat. rewrite dec_value_cons, IH.
  change (digit_val "0") with 0. lia.
Qed.

Lemma dec_value_bounds (s : str) :
  all_digits s = true -> 0 <= dec_value s < 10 ^ len s.
Proof.
  induction s as [|c s IH]; intros H.
  - change (dec_value []) with 0. change (len []) with 0. simpl. lia.
  - rewrite all_digits_cons in H. apply andb_true_iff in H as [Hc Hs].
    specialize (IH Hs). apply digit_facts in Hc.
    destruct Hc as (_ & _ & _ & _ & _ & Hv).
    rewrite dec_value_cons, len_cons.
    rewrite Z.pow_add_r by (pose proof (len_nonneg s); lia). nia.
Qed.

Lemma dec_value_pad (s : str) (n : nat) :
  dec_value (s ++ repeat "0" n) = dec_value s * 10 ^ Z.of_nat n.
Proof.
  rewrite dec_value_app, dec_value_repeat0, len_repeat. lia.
Qed.

Lemma dec_value_lead (s : str) (n : nat) :
  dec_value (repeat "0" n ++ s) = dec_value s.
Proof.
  rewrite dec_value_app, dec_value_repeat0. lia.
Qed.

(** ** [str] of an int *)

Lemma digits_acc_spec (fuel : nat) :
  forall (n : Z) (acc : str),
    0 <= n < 10 ^ (Z.of_nat fuel + 1) ->
    exists ds,
      digits_acc fuel n acc = ds ++ acc /\ all_digits ds = true /\
      dec_value ds = n /\ ds <> [] /\ (0 < n -> hd "0" ds <> "0").
Proof.
  assert (Base : forall n acc, 0 <= n < 10 ->
            exists ds, digit_char (n mod 10) :: acc = ds ++ acc /\
              all_digits ds = true /\ dec_value ds = n /\ ds <> [] /\
              (0 < n -> hd "0" ds <> "0")).
  { intros n acc Hn. exists [digit_char (n mod 10)].
    rewrite Z.mod_small by lia.
    destruct (digit_char_spec n) as [Hd Hv]; [lia|].
    repeat split.
    - rewrite all_digits_cons, Hd. reflexivity.
    - rewrite dec_value_cons, Hv. change (len []) with 0.
      change (dec_value []) with 0. lia.
    - discriminate.
    - intros Hpos. simpl. intros E.
      apply (digit_val_zero_iff _ Hd) in E. lia. }
  induction fuel as [|f IH]; intros n acc Hn.
  - simpl digits_acc. apply Base. simpl in Hn. lia.
  - simpl digits_acc. destruct (Z.ltb_spec n 10) as [Hlt | Hge].
    + apply Base. lia.
    + assert (Hq : 0 <= n / 10 < 10 ^ (Z.of_nat f + 1)).
      { split; [apply Z.div_pos; lia|].
        apply Z.div_lt_upper_bound; [lia|].
        replace (Z.of_nat (S f) + 1) with (1 + (Z.of_nat f + 1)) in Hn by lia.
        rewrite Z.pow_add_r in Hn by lia. lia. }
      destruct (IH (n / 10) (digit_char (n mod 10) :: acc) Hq)
        as (ds & E & Hd & Hv & Hne & Hhd).
      destruct (digit_char_spec (n mod 10)) as [Hcd Hcv].
      { pose proof (Z.mod_pos_bound n 10). lia. }
      exists (ds ++ [digit_char (n mod 10)]). repeat split.
      * rewrite E, <- app_assoc. reflexivity.
      * rewrite all_digits_app, Hd, all_digits_cons, Hcd. reflexivity.
      * rewrite dec_value_app, Hv, dec_value_cons, Hcv.
        change (len [digit_char (n mod 10)]) with 1. change (len []) with 0.
        change (dec_value []) with 0.
        pose proof (Z.div_mod n 10). lia.
      * destruct ds; discriminate.
      * intros _. destruct ds as [|d ds]; [congruence|].
        simpl. simpl in Hhd. apply Hhd.
        assert (1 <= n / 10) by (apply Z.div_le_lower_bound; lia). lia.
Qed.

Lemma digits_of_spec (n : Z) :
  0 <= n ->
  all_digits (digits_of n) = true /\ dec_value (digits_of n) = n /\
  digits_of n <> [] /\ (0 < n -> hd "0" (digits_of n) <> "0").
Proof.
  intros Hn. unfold digits_of.
  destruct (digits_acc_spec (Z.to_nat (Z.log2 n)) n []) as (ds & E & H).
  - split; [assumption|].
    rewrite Z2Nat.id by apply Z.log2_nonneg.
    destruct (Z.eq_dec n 0) as [-> | Hnz]; [reflexivity|].
    destruct (Z.log2_spec n) as [_ Hlt]; [lia|].
    apply Z.lt_le_trans with (1 := Hlt).
    replace (Z.succ (Z.log2 n)) with (Z.log2 n + 1) by lia.
    apply Z.pow_le_mono_l. lia.
  - rewrite app_nil_r in E. rewrite E. exact H.
Qed.

Lemma str_of_int_nonneg (n : Z) : 0 <= n -> str_of_int n = digits_of n.
Proof.
  intros Hn. unfold str_of_int.
  destruct (Z.ltb_spec n 0); [lia | reflexivity].
Qed.

Lemma str_of_int_neg (n : Z) : n < 0 -> str_of_int n = "-" :: digits_of (- n).
Proof.
  intros Hn. unfold str_of_int.
  destruct (Z.ltb_spec n 0); [reflexivity | lia].
Qed.

(** ** [int] of a string of digits *)

Lemma lstrip_space_head (c : ascii) (s : str) :
  is_space c = false -> lstrip_space (c :: s) = c :: s.
Proof. intros H. simpl. rewrite H. reflexivity. Qed.

Lemma strip_space_ends (s : str) :
  (forall c, hd_error s = Some c -> is_space c = false) ->
  (forall c, hd_error (rev s) = Some c -> is_space c = false) ->
  strip_space s = s.
Proof.
  intros Hh Hl. unfold strip_space.
  assert (E : lstrip_space s = s).
  { destruct s as [|c s]; [reflexivity|].
    apply lstrip_space_head, Hh. reflexivity. }
  rewrite E.
  assert (E' : lstrip_space (rev s) = rev s).
  { destruct (rev s) as [|c r]; [reflexivity|].
    apply lstrip_space_head, Hl. reflexivity. }
  rewrite E'. apply rev_involutive.
Qed.

Lemma digits_hd (s : str) (c : ascii) :
  all_digits s = true -> hd_error s = Some c -> is_digit c = true.
Proof.
  destruct s as [|x s]; [discriminate|].
  rewrite all_digits_cons. intros H E. injection E as <-.
  apply andb_true_iff in H. tauto.
Qed.

Lemma strip_space_digits (s : str) :
  all_digits s = true -> strip_space s = s.
Proof.
  intros H. apply strip_space_ends; intros c E.
  - apply digit_facts. eapply digits_hd; eauto.
  - apply digit_facts. eapply digits_hd; [|eauto].
    rewrite all_digits_rev. assumption.
Qed.

Lemma drop_underscores_digits (s : str) (prev : option ascii) :
  all_digits s = true -> drop_underscores prev s = Some s.
Proof.
  revert prev. induction s as [|c s IH]; intros prev H; [reflexivity|].
  rewrite all_digits_cons in H. apply andb_true_iff in H as [Hc Hs].
  cbn [drop_underscores].
  destruct (digit_facts c Hc) as (_ & -> & _).
  rewrite (IH _ Hs). reflexivity.
Qed.

Lemma take_sign_digits (s : str) :
  all_digits s = true -> take_sign s = (false, s).
Proof.
  destruct s as [|c s]; [reflexivity|].
  rewrite all_digits_cons. intros H. apply andb_true_iff in H as [Hc _].
  unfold take_sign.
  destruct (digit_facts c Hc) as (_ & _ & -> & -> & _). reflexivity.
Qed.

Lemma int_of_str_digits (s : str) :
  all_digits s = true -> s <> [] -> int_of_str s = Ok (dec_value s).
Proof.
  intros H Hne. unfold int_of_str.
  rewrite (strip_space_digits s H), (take_sign_digits s H).
  rewrite (drop_underscores_digits s None H).
  destruct s as [|c s]; [congruence|].
  unfold all_digits in H. rewrite H. reflexivity.
Qed.

Lemma int_of_str_or (s : str) :
  all_digits s = true -> int_of_str (str_or s ["0"]) = Ok (dec_value s).
Proof.
  intros H. destruct s as [|c s]; [reflexivity|].
  apply int_of_str_digits; [assumption | discriminate].
Qed.

Lemma int_of_str_minus (s : str) :
  all_digits s = true -> s <> [] ->
  int_of_str ("-" :: s) = Ok (- dec_value s).
Proof.
  intros H Hne. unfold int_of_str.
  assert (E : strip_space ("-" :: s) = "-" :: s).
  { apply strip_space_ends; intros c Hc.
    - injection Hc as <-. reflexivity.
    - simpl rev in Hc. destruct (rev s) as [|x r] eqn:Er.
      + apply (f_equal (@rev ascii)) in Er. rewrite rev_involutive in Er.
        simpl in Er. congruence.
      + injection Hc as <-. apply digit_facts.
        apply (digits_hd (x :: r)); [|reflexivity].
        rewrite <- Er, all_digits_rev. assumption. }
  rewrite E. cbn [take_sign]. change (Ascii.eqb "-" "-") with true. cbv iota.
  rewrite (drop_underscores_digits s None H).
  destruct s as [|c s]; [congruence|].
  unfold all_digits in H. rewrite H. reflexivity.
Qed.

(** ** Splitting at the decimal point, slices and repetition *)

Lemma contains_app (c : ascii) (s t : str) :
  contains c (s ++ t) = contains c s || contains c t.
Proof. apply existsb_app. Qed.

Lemma contains_cons (c x : ascii) (s : str) :
  contains c (x :: s) = Ascii.eqb c x || contains c s.
Proof. reflexivity. Qed.

Lemma digits_no_point (s : str) :
  all_digits s = true -> contains "." s = false.
Proof.
  induction s as [|c s IH]; [reflexivity|].
  rewrite all_digits_cons, contains_cons. intros H.
  apply andb_true_iff in H as [Hc Hs].
  destruct (digit_facts c Hc) as (E & _).
  rewrite Ascii.eqb_sym, E. simpl. auto.
Qed.

Lemma split_no_sep (sep : ascii) (s : str) :
  contains sep s = false -> split sep s = [s].
Proof.
  induction s as [|c s IH]; [reflexivity|].
  rewrite contains_cons. intros H. apply orb_false_iff in H as [Hc Hs].
  cbn [split]. rewrite Ascii.eqb_sym, Hc, (IH Hs). reflexivity.
Qed.

Lemma split_at_sep (sep : ascii) (s r : str) :
  contains sep s = false -> split sep (s ++ sep :: r) = s :: split sep r.
Proof.
  induction s as [|c s IH]; intros H.
  - simpl app. cbn [split]. rewrite Ascii.eqb_refl. reflexivity.
  - rewrite contains_cons in H. apply orb_false_iff in H as [Hc Hs].
    simpl app. cbn [split]. rewrite Ascii.eqb_sym, Hc, (IH Hs). reflexivity.
Qed.

Lemma split_nonempty (sep : ascii) (s : str) : split sep s <> [].
Proof.
  destruct s as [|c s]; [discriminate|].
  cbn [split]. destruct (Ascii.eqb c sep); [discriminate|].
  destruct (split sep s); discriminate.
Qed.

Lemma split_single (sep : ascii) (s : str) :
  contains sep s = false <-> exists p, split sep s = [p].
Proof.
  split.
  - intros H. exists s. apply split_no_sep, H.
  - induction s as [|c s IH]; [reflexivity|].
    intros [p E]. cbn [split] in E. rewrite contains_cons, Ascii.eqb_sym.
    destruct (Ascii.eqb c sep).
    + pose proof (split_nonempty sep s). destruct (split sep s); congruence.
    + simpl. apply IH. pose proof (split_nonempty sep s) as Hne.
      destruct (split sep s) as [|q [|q' qs]];
        [congruence | eauto | discriminate].
Qed.

Lemma slice_to_nonneg (s : str) (k : Z) :
  0 <= k -> slice_to s k = firstn (Z.to_nat k) s.
Proof.
  intros H. unfold slice_to, slice_bound.
  destruct (Z.ltb_spec k 0); [lia | reflexivity].
Qed.

Lemma slice_bound_neg (n : nat) (d : Z) :
  0 < d -> slice_bound n (- d) = (n - Z.to_nat d)%nat.
Proof.
  intros H. unfold slice_bound.
  destruct (Z.ltb_spec (- d) 0); lia.
Qed.

Lemma str_mul_char (c : ascii) (k : Z) : str_mul [c] k = repeat c (Z.to_nat k).
Proof.
  unfold str_mul. induction (Z.to_nat k) as [|n IH]; [reflexivity|].
  simpl. f_equal. exact IH.
Qed.

Lemma str_eqb_eq (s t : str) : str_eqb s t = true <-> s = t.
Proof.
  unfold str_eqb. destruct (list_eq_dec ascii_dec s t); intuition congruence.
Qed.

(** ** [divisible_to_indivisible] on digit strings *)

Import conversion.

Lemma lstrip_zero_value (s : str) : dec_value (lstrip "0" s) = dec_value s.
Proof.
  induction s as [|c s IH]; [reflexivity|].
  cbn [lstrip]. destruct (Ascii.eqb_spec c "0") as [-> | Hc]; [|reflexivity].
  rewrite IH, dec_value_cons. change (digit_val "0") with 0. lia.
Qed.

Lemma lstrip_zero_digits (s : str) :
  all_digits s = true -> all_digits (lstrip "0" s) = true.
Proof.
  induction s as [|c s IH]; [reflexivity|].
  intros H. cbn [lstrip]. destruct (Ascii.eqb c "0"); [|assumption].
  rewrite all_digits_cons in H. apply andb_true_iff in H as [_ Hs]. auto.
Qed.

Lemma zero_pad_right_digits (s : str) (w : nat) :
  all_digits s = true -> all_digits (zero_pad_right s w) = true.
Proof.
  intros H. unfold zero_pad_right.
  rewrite all_digits_app, H, all_digits_repeat0. reflexivity.
Qed.

Lemma zero_pad_right_length (s : str) (w : nat) :
  (length s <= w)%nat -> length (zero_pad_right s w) = w.
Proof.
  intros H. unfold zero_pad_right. rewrite length_app, repeat_length. lia.
Qed.

(** A decimal string with a fractional part: the fractional digits are cut
    at [decimals], padded with zeros to [decimals], and read after the
    integer digits. *)
Lemma d2i_point (ip fp : str) (d : Z) :
  all_digits ip = true -> all_digits fp = true -> 0 <= d ->
  divisible_to_indivisible (PStr (ip ++ "." :: fp)) d
  = Ok (dec_value (ip ++ zero_pad_right (firstn (Z.to_nat d) fp) (Z.to_nat d))).
Proof.
  intros Hip Hfp Hd. unfold divisible_to_indivisible.
  change (checked_str (PStr (ip ++ "." :: fp))) with (Ok (ip ++ "." :: fp)).
  cbn [bind]. unfold DECIMAL_POINT.
  rewrite contains_app, contains_cons, Ascii.eqb_refl, orb_true_r.
  rewrite split_at_sep, split_no_sep by (apply digits_no_point; assumption).
  cbn [unpack2 bind fst snd]. rewrite slice_to_nonneg by assumption.
  set (f := firstn (Z.to_nat d) fp).
  assert (Hf : all_digits f = true) by (apply all_digits_firstn; assumption).
  assert (Hpad : Z.to_nat (d - len f) = (Z.to_nat d - length f)%nat)
    by (unfold len; lia).
  destruct (str_eqb ip ["0"]) eqn:Eip; cbn [negb].
  - apply str_eqb_eq in Eip. subst ip. cbn [bind].
    rewrite str_mul_char.
    replace (d - (len f - len (lstrip "0" f)) - len (lstrip "0" f))
      with (d - len f) by lia.
    rewrite Hpad, int_of_str_or.
    + f_equal. unfold zero_pad_right.
      rewrite dec_value_pad, lstrip_zero_value.
      change (["0"] ++ f ++ repeat "0" (Z.to_nat d - length f))
        with ("0" :: (f ++ repeat "0" (Z.to_nat d - length f))).
      rewrite dec_value_cons, dec_value_pad.
      change (digit_val "0") with 0. lia.
    + rewrite all_digits_app, lstrip_zero_digits, all_digits_repeat0 by assumption.
      reflexivity.
  - unfold format_fill0. destruct (Z.ltb_spec d 0); [lia|]. cbn [bind].
    rewrite Hpad, int_of_str_or; [reflexivity|].
    rewrite all_digits_app, Hip. apply (zero_pad_right_digits f _ Hf).
Qed.

(** A decimal string without a fractional part: [decimals] zeros are
    appended. *)
Lemma d2i_plain (ip : str) (d : Z) :
  all_digits ip = true -> 0 <= d ->
  divisible_to_indivisible (PStr ip) d
  = Ok (dec_value (ip ++ repeat "0" (Z.to_nat d))).
Proof.
  intros Hip Hd. unfold divisible_to_indivisible.
  change (checked_str (PStr ip)) with (Ok ip).
  cbn [bind]. unfold DECIMAL_POINT.
  rewrite (digits_no_point ip Hip). cbn [bind fst snd].
  rewrite str_mul_char.
  destruct (str_eqb ip ["0"]) eqn:Eip; cbn [negb].
  - apply str_eqb_eq in Eip. subst ip. cbn [bind].
    rewrite str_mul_char, int_of_str_or.
    + rewrite dec_value_pad, lstrip_zero_value, dec_value_repeat0.
      change (["0"] ++ repeat "0" (Z.to_nat d))
        with (repeat "0" (S (Z.to_nat d))).
      rewrite dec_value_repeat0. reflexivity.
    + rewrite all_digits_app, lstrip_zero_digits, all_digits_repeat0;
        auto using all_digits_repeat0.
  - unfold format_fill0. destruct (Z.ltb_spec d 0); [lia|]. cbn [bind].
    rewrite len_repeat.
    replace (Z.to_nat (d - Z.of_nat (Z.to_nat d))) with 0%nat by lia.
    cbn [repeat]. rewrite app_nil_r, int_of_str_or; [reflexivity|].
    rewrite all_digits_app, Hip, all_digits_repeat0. reflexivity.
Qed.

Lemma d2i_plain_value (ip : str) (d : Z) :
  all_digits ip = true -> 0 <= d ->
  divisible_to_indivisible (PStr ip) d = Ok (dec_value ip * 10 ^ d).
Proof.
  intros Hip Hd. rewrite d2i_plain, dec_value_pad by assumption.
  rewrite Z2Nat.id by assumption. reflexivity.
Qed.

(** An int amount is multiplied by [10 ^ decimals]. *)
Lemma d2i_int (n d : Z) :
  0 <= d -> divisible_to_indivisible (PInt n) d = Ok (n * 10 ^ d).
Proof.
  intros Hd. destruct (Z.lt_ge_cases n 0) as [Hneg | Hpos].
  - unfold divisible_to_indivisible.
    change (checked_str (PInt n)) with (Ok (str_of_int n)).
    rewrite (str_of_int_neg n Hneg).
    destruct (digits_of_spec (- n)) as (Hdg & Hv & Hne & _); [lia|].
    cbn [bind]. unfold DECIMAL_POINT.
    rewrite contains_cons, (digits_no_point _ Hdg).
    change (Ascii.eqb "." "-") with false. cbn [orb bind fst snd].
    change (str_eqb ("-" :: digits_of (- n)) ["0"]) with false.
    cbn [negb]. rewrite str_mul_char.
    unfold format_fill0. destruct (Z.ltb_spec d 0); [lia|]. cbn [bind].
    rewrite len_repeat.
    replace (Z.to_nat (d - Z.of_nat (Z.to_nat d))) with 0%nat by lia.
    cbn [repeat]. rewrite app_nil_r.
    change (str_or (("-" :: digits_of (- n)) ++ repeat "0" (Z.to_nat d)) ["0"])
      with ("-" :: (digits_of (- n) ++ repeat "0" (Z.to_nat d))).
    rewrite int_of_str_minus.
    + rewrite dec_value_pad, Hv, Z2Nat.id by assumption. f_equal. lia.
    + rewrite all_digits_app, Hdg, all_digits_repeat0. reflexivity.
    + destruct (digits_of (- n)); [congruence | discriminate].
  - change (divisible_to_indivisible (PInt n) d)
      with (divisible_to_indivisible (PStr (str_of_int n)) d).
    rewrite (str_of_int_nonneg n Hpos).
    destruct (digits_of_spec n Hpos) as (Hdg & Hv & _).
    rewrite d2i_plain_value, Hv by assumption. reflexivity.
Qed.

(** The same result as a number: the decimal value scaled by
    [10 ^ decimals], rounded down. *)
Lemma truncated_value (ip fp : str) (k : nat) :
  all_digits fp = true ->
  dec_value (ip ++ zero_pad_right (firstn k fp) k)
  = dec_value (ip ++ fp) * 10 ^ Z.of_nat k / 10 ^ len fp.
Proof.
  intros Hfp. unfold zero_pad_right.
  destruct (Nat.le_gt_cases (length fp) k) as [Hle | Hgt].
  - rewrite firstn_all2 by assumption.
    rewrite app_assoc, dec_value_pad.
    replace (Z.of_nat k) with (Z.of_nat (k - length fp) + len fp)
      by (unfold len; lia).
    rewrite Z.pow_add_r by (unfold len; lia).
    rewrite Z.mul_assoc, Z.div_mul; [reflexivity|].
    apply Z.pow_nonzero; [lia | apply len_nonneg].
  - rewrite length_firstn, Nat.min_l by lia.
    rewrite Nat.sub_diag. cbn [repeat]. rewrite app_nil_r.
    rewrite <- (firstn_skipn k fp) at 2.
    set (f1 := firstn k fp). set (f2 := skipn k fp).
    assert (H2 : all_digits f2 = true) by (apply all_digits_skipn; assumption).
    apply dec_value_bounds in H2.
    assert (Hl : len fp = Z.of_nat k + len f2).
    { unfold len, f2. rewrite length_skipn. lia. }
    rewrite Hl, Z.pow_add_r by (pose proof (len_nonneg f2); lia).
    rewrite (Z.mul_comm (dec_value _) (10 ^ Z.of_nat k)).
    rewrite Z.div_mul_cancel_l
      by (apply Z.pow_nonzero; [lia | first [apply len_nonneg | lia]]).
    rewrite (app_assoc ip f1 f2), (dec_value_app (ip ++ f1) f2).
    apply Z.div_unique with (r := dec_value f2); lia.
Qed.

(** ** Stripping zeros *)

Lemma lstrip_split (c : ascii) (s : str) :
  s = repeat c (length s - length (lstrip c s)) ++ lstrip c s.
Proof.
  induction s as [|x s IH]; [reflexivity|].
  cbn [lstrip]. destruct (Ascii.eqb_spec x c) as [-> | Hx].
  - assert (Hl : (length (lstrip c s) <= length s)%nat).
    { rewrite IH at 2. rewrite length_app. lia. }
    cbn [length].
    replace (S (length s) - length (lstrip c s))%nat
      with (S (length s - length (lstrip c s))) by lia.
    cbn [repeat app]. f_equal. exact IH.
  - rewrite Nat.sub_diag. reflexivity.
Qed.

Lemma lstrip_length (c : ascii) (s : str) :
  (length (lstrip c s) <= length s)%nat.
Proof. rewrite (lstrip_split c s) at 2. rewrite length_app. lia. Qed.

Lemma lstrip_hd (c : ascii) (s : str) : hd_error (lstrip c s) <> Some c.
Proof.
  induction s as [|x s IH]; [discriminate|].
  cbn [lstrip]. destruct (Ascii.eqb_spec x c) as [-> | Hx]; [assumption|].
  simpl. congruence.
Qed.

Lemma repeat_rev (c : ascii) (n : nat) : rev (repeat c n) = repeat c n.
Proof.
  induction n as [|n IH]; [reflexivity|].
  simpl. rewrite IH. symmetry. apply repeat_cons.
Qed.

Lemma rstrip_length (c : ascii) (s : str) :
  (length (rstrip c s) <= length s)%nat.
Proof.
  unfold rstrip. rewrite length_rev.
  rewrite <- (length_rev s). apply lstrip_length.
Qed.

Lemma rstrip_split (c : ascii) (s : str) :
  s = rstrip c s ++ repeat c (length s - length (rstrip c s)).
Proof.
  unfold rstrip. rewrite length_rev.
  rewrite <- (rev_involutive s) at 1.
  rewrite (lstrip_split c (rev s)) at 1.
  rewrite rev_app_distr, repeat_rev, length_rev. reflexivity.
Qed.

Lemma rstrip_last (c : ascii) (s : str) :
  rstrip c s <> [] -> last (rstrip c s) c <> c.
Proof.
  unfold rstrip. pose proof (lstrip_hd c (rev s)) as H.
  destruct (lstrip c (rev s)) as [|x r]; [simpl; congruence|].
  intros _. simpl rev. rewrite last_last. simpl in H. congruence.
Qed.

Lemma rstrip_digits (s : str) :
  all_digits s = true -> all_digits (rstrip "0" s) = true.
Proof.
  intros H. unfold rstrip.
  rewrite all_digits_rev. apply lstrip_zero_digits.
  rewrite all_digits_rev. assumption.
Qed.

Lemma rstrip_no_sep (sep c : ascii) (s : str) :
  contains sep s = false -> contains sep (rstrip c s) = false.
Proof.
  intros H. rewrite (rstrip_split c s), contains_app in H.
  apply orb_false_iff in H. tauto.
Qed.

(** The stripped fractional part, padded again, is the fractional part. *)
Lemma stripped_pad (fp : str) :
  fp <> [] ->
  let f := str_or (rstrip "0" fp) ["0"] in
  zero_pad_right f (length fp) = fp /\ (length f <= length fp)%nat.
Proof.
  intros Hne. cbv zeta. unfold zero_pad_right.
  pose proof (rstrip_split "0" fp) as E.
  pose proof (rstrip_length "0" fp) as Hl.
  destruct (rstrip "0" fp) as [|x r] eqn:Er; cbn [str_or].
  - cbn [app length] in *. rewrite Nat.sub_0_r in E.
    remember (length fp) as n eqn:En.
    destruct n as [|n]; [simpl in E; congruence|].
    split; [|lia]. rewrite E. simpl. rewrite Nat.sub_0_r. reflexivity.
  - split; [symmetry; exact E | exact Hl].
Qed.

(** ** [indivisible_to_divisible] on strings without a point *)

Lemma contains_firstn (sep : ascii) (n : nat) (s : str) :
  contains sep s = false -> contains sep (firstn n s) = false.
Proof.
  intros H. rewrite <- (firstn_skipn n s), contains_app in H.
  apply orb_false_iff in H. tauto.
Qed.

Lemma contains_skipn (sep : ascii) (n : nat) (s : str) :
  contains sep s = false -> contains sep (skipn n s) = false.
Proof.
  intros H. rewrite <- (firstn_skipn n s), contains_app in H.
  apply orb_false_iff in H. tauto.
Qed.

Lemma contains_repeat0 (n : nat) : contains "." (repeat "0" n) = false.
Proof. apply digits_no_point, all_digits_repeat0. Qed.

(** For [decimals >= 1] the code inserts the point as the specification
    says, whatever the characters of the amount (a point apart). *)
Lemma i2d_no_point (s : str) (d : Z) :
  contains "." s = false -> 1 <= d ->
  indivisible_to_divisible (PStr s) d = Ok (point_inserted s (Z.to_nat d)).
Proof.
  intros Hs Hd. unfold indivisible_to_divisible.
  change (checked_str (PStr s)) with (Ok s). cbn [bind].
  unfold point_inserted, zero_pad_left.
  destruct (Z.ltb_spec d (len s)) as [Hlt | Hge]; cbn [bind].
  - unfold slice_to, slice_from. rewrite slice_bound_neg by lia.
    change (["."] ++ skipn (length s - Z.to_nat d) s)
      with ("." :: skipn (length s - Z.to_nat d) s).
    rewrite split_at_sep by (apply contains_firstn; assumption).
    rewrite split_no_sep by (apply contains_skipn; assumption).
    cbn [unpack2 bind fst snd].
    replace (S (Z.to_nat d) - length s)%nat with 0%nat by (unfold len in Hlt; lia).
    cbn [repeat app]. reflexivity.
  - unfold format_fill0. destruct (Z.ltb_spec d 0); [lia|]. cbn [bind].
    replace (Z.to_nat (d - len s)) with (Z.to_nat d - length s)%nat
      by (unfold len; lia).
    change (lit "0." ++ repeat "0" (Z.to_nat d - length s) ++ s)
      with (["0"] ++ "." :: (repeat "0" (Z.to_nat d - length s) ++ s)).
    rewrite split_at_sep by reflexivity.
    rewrite split_no_sep
      by (rewrite contains_app, contains_repeat0; assumption).
    cbn [unpack2 bind fst snd].
    replace (S (Z.to_nat d) - length s)%nat
      with (S (Z.to_nat d - length s)) by (unfold len in Hge; lia).
    cbn [repeat app length].
    rewrite length_app, repeat_length.
    replace (S (Z.to_nat d - length s + length s) - Z.to_nat d)%nat
      with 1%nat by (unfold len in Hge; lia).
    reflexivity.
Qed.

(** The two parts of the zero-padded amount around the inserted point. *)
Lemma point_inserted_parts (s : str) (k : nat) :
  exists ip fp,
    zero_pad_left s (S k) = ip ++ fp /\ length fp = k /\ ip <> [] /\
    point_inserted s k = ip ++ "." :: str_or (rstrip "0" fp) ["0"].
Proof.
  set (p := zero_pad_left s (S k)).
  assert (Hp : (S k <= length p)%nat).
  { unfold p, zero_pad_left. rewrite length_app, repeat_length. lia. }
  exists (firstn (length p - k) p), (skipn (length p - k) p).
  repeat split.
  - symmetry. apply firstn_skipn.
  - rewrite length_skipn. lia.
  - intros E. apply (f_equal (@length ascii)) in E.
    rewrite length_firstn in E. simpl in E. lia.
Qed.

Lemma zero_pad_left_digits (s : str) (w : nat) :
  all_digits s = true -> all_digits (zero_pad_left s w) = true.
Proof.
  intros H. unfold zero_pad_left.
  rewrite all_digits_app, all_digits_repeat0, H. reflexivity.
Qed.

Lemma zero_pad_left_value (s : str) (w : nat) :
  dec_value (zero_pad_left s w) = dec_value s.
Proof. apply dec_value_lead. Qed.

Lemma str_or_digits (s : str) :
  all_digits s = true -> all_digits (str_or s ["0"]) = true.
Proof. destruct s; auto. Qed.

(** An int amount that is not negative is converted as its numeral. *)
Lemma i2d_int_as_str (n d : Z) :
  indivisible_to_divisible (PInt n) d
  = indivisible_to_divisible (PStr (str_of_int n)) d.
Proof. reflexivity. Qed.

(** ** The round trip for [decimals >= 1] *)

Lemma roundtrip_digits (s : str) (d : Z) :
  all_digits s = true -> 1 <= d ->
  (r <- indivisible_to_divisible (PStr s) d ;;
   divisible_to_indivisible (PStr r) d) = Ok (dec_value s).
Proof.
  intros Hs Hd.
  rewrite i2d_no_point by (auto using digits_no_point). cbn [bind].
  destruct (point_inserted_parts s (Z.to_nat d)) as (ip & fp & Ep & Hl & _ & ->).
  pose proof (zero_pad_left_digits s (S (Z.to_nat d)) Hs) as Hdg.
  rewrite Ep, all_digits_app in Hdg. apply andb_true_iff in Hdg as [Hip Hfp].
  assert (Hne : fp <> []) by (destruct fp; [simpl in Hl; lia | discriminate]).
  destruct (stripped_pad fp Hne) as [Epad Hlen].
  rewrite d2i_point by (auto using str_or_digits, rstrip_digits || lia).
  rewrite firstn_all2 by lia.
  rewrite <- Hl, Epad, <- Ep, zero_pad_left_value. reflexivity.
Qed.

Lemma roundtrip_positive_decimals (a d : Z) :
  0 <= a -> 1 <= d ->
  (r <- indivisible_to_divisible (PInt a) d ;;
   divisible_to_indivisible (PStr r) d) = Ok a.
Proof.
  intros Ha Hd. rewrite i2d_int_as_str, str_of_int_nonneg by assumption.
  destruct (digits_of_spec a Ha) as (Hdg & Hv & _).
  rewrite roundtrip_digits by assumption. rewrite Hv. reflexivity.
Qed.

(** The string the specification describes, read as a number: it has the
    digits of the amount with the point [decimals] places from the right,
    so it denotes [amount / 10 ^ decimals] exactly, and its fractional part
    is ["0"] or ends in a digit other than zero. *)
Lemma point_inserted_shape (s : str) (k : nat) :
  all_digits s = true ->
  exists ip fp,
    point_inserted s k = ip ++ "." :: fp /\
    all_digits ip = true /\ all_digits fp = true /\ ip <> [] /\ fp <> [] /\
    (fp = ["0"] \/ last fp "0" <> "0") /\
    dec_value (ip ++ fp) * 10 ^ Z.of_nat k = dec_value s * 10 ^ len fp.
Proof.
  intros Hs.
  destruct (point_inserted_parts s k) as (ip & fp & Ep & Hl & Hne & ->).
  pose proof (zero_pad_left_digits s (S k) Hs) as Hdg.
  rewrite Ep, all_digits_app in Hdg. apply andb_true_iff in Hdg as [Hip Hfp].
  pose proof (zero_pad_left_value s (S k)) as Hv. rewrite Ep in Hv.
  exists ip, (str_or (rstrip "0" fp) ["0"]).
  split; [reflexivity|]. split; [assumption|].
  split; [apply str_or_digits, rstrip_digits; assumption|].
  split; [assumption|].
  split; [destruct (rstrip "0" fp); discriminate|].
  split.
  - pose proof (rstrip_last "0" fp) as Hlast.
    destruct (rstrip "0" fp) as [|x r]; [left; reflexivity|].
    right. apply Hlast. discriminate.
  - destruct fp as [|y fp'] eqn:Efp.
    + simpl in Hl. subst k. rewrite app_nil_r in Hv.
      change (str_or (rstrip "0" []) ["0"]) with ["0"].
      rewrite dec_value_app, Hv. change (len ["0"]) with 1.
      change (dec_value ["0"]) with 0. lia.
    + rewrite <- Efp in *.
      assert (Hnefp : fp <> []) by (rewrite Efp; discriminate).
      destruct (stripped_pad fp Hnefp) as [Epad Hlen].
      set (f := str_or (rstrip "0" fp) ["0"]) in *.
      rewrite <- Hv. rewrite <- Epad at 1. unfold zero_pad_right.
      rewrite app_assoc, dec_value_pad, Hl.
      rewrite <- Z.mul_assoc, <- Z.pow_add_r by (unfold len; lia).
      f_equal. f_equal. unfold len. lia.
Qed.

Lemma count_point_no (s : str) :
  contains "." s = false -> count_occ ascii_dec s "." = 0%nat.
Proof.
  induction s as [|c s IH]; [reflexivity|].
  rewrite contains_cons. intros H. apply orb_false_iff in H as [Hc Hs].
  apply Ascii.eqb_neq in Hc.
  rewrite count_occ_cons_neq by congruence. auto.
Qed.

Lemma count_point_one (ip fp : str) :
  contains "." ip = false -> contains "." fp = false ->
  count_occ ascii_dec (ip ++ "." :: fp) "." = 1%nat.
Proof.
  intros Hi Hf. rewrite count_occ_app, count_occ_cons_eq by reflexivity.
  rewrite (count_point_no ip Hi), (count_point_no fp Hf). reflexivity.
Qed.

(** The contract of [indivisible_to_divisible] for [decimals >= 1] and an
    amount that is a digit string: the point is inserted [decimals] digits
    from the right of the zero-padded amount, trailing zeros of the fraction
    go; the result has one point, no unnecessary trailing zero, and denotes
    [amount / 10 ^ decimals]. *)
Theorem i2d_contract_positive_decimals (s : str) (d : Z) :
  all_digits s = true -> 1 <= d ->
  exists ip fp,
    indivisible_to_divisible (PStr s) d = Ok (ip ++ "." :: fp) /\
    ip ++ "." :: fp = point_inserted s (Z.to_nat d) /\
    count_occ ascii_dec (ip ++ "." :: fp) "." = 1%nat /\
    all_digits ip = true /\ all_digits fp = true /\ ip <> [] /\
    (fp = ["0"] \/ last fp "0" <> "0") /\
    dec_value (ip ++ fp) * 10 ^ d = dec_value s * 10 ^ len fp.
Proof.
  intros Hs Hd.
  destruct (point_inserted_shape s (Z.to_nat d) Hs)
    as (ip & fp & E & Hip & Hfp & Hne & _ & Hz & Hv).
  exists ip, fp. rewrite i2d_no_point, E by (auto using digits_no_point).
  rewrite Z2Nat.id in Hv by lia.
  repeat split; auto.
  apply count_point_one; apply digits_no_point; assumption.
Qed.

(** The same for an int amount that is not negative. *)
Theorem i2d_contract_int (n d : Z) :
  0 <= n -> 1 <= d ->
  exists ip fp,
    indivisible_to_divisible (PInt n) d = Ok (ip ++ "." :: fp) /\
    ip ++ "." :: fp = point_inserted (str_of_int n) (Z.to_nat d) /\
    count_occ ascii_dec (ip ++ "." :: fp) "." = 1%nat /\
    all_digits ip = true /\ all_digits fp = true /\ ip <> [] /\
    (fp = ["0"] \/ last fp "0" <> "0") /\
    dec_value (ip ++ fp) * 10 ^ d = n * 10 ^ len fp.
Proof.
  intros Hn Hd. rewrite i2d_int_as_str.
  rewrite (str_of_int_nonneg n Hn).
  destruct (digits_of_spec n Hn) as (Hdg & Hv & _).
  destruct (i2d_contract_positive_decimals (digits_of n) d Hdg Hd)
    as (ip & fp & H). rewrite Hv in H. exists ip, fp. exact H.
Qed.

(** With [decimals = 0] the slice [amount[:-0]] is empty and [amount[-0:]]
    is the whole amount: the digits land after the point. *)
Lemma i2d_zero_decimals (s : str) :
  contains "." s = false -> s <> [] ->
  indivisible_to_divisible (PStr s) 0
  = Ok ("." :: str_or (rstrip "0" s) ["0"]).
Proof.
  intros Hs Hne. unfold indivisible_to_divisible.
  change (checked_str (PStr s)) with (Ok s). cbn [bind].
  destruct (Z.ltb_spec 0 (len s)) as [Hlt | Hge].
  - cbn [bind]. change (- 0) with 0.
    unfold slice_to, slice_from, slice_bound. cbn [Z.ltb Z.compare Z.to_nat].
    cbn [firstn skipn app].
    change ("." :: s) with ([] ++ "." :: s).
    rewrite (split_at_sep "." [] s) by reflexivity.
    rewrite split_no_sep by assumption. reflexivity.
  - destruct s; [congruence|]. rewrite len_cons in Hge.
    pose proof (len_nonneg s). lia.
Qed.

(** So that the round trip loses every amount but zero. *)
Lemma roundtrip_zero_decimals (a : Z) :
  0 <= a ->
  (r <- indivisible_to_divisible (PInt a) 0 ;;
   divisible_to_indivisible (PStr r) 0) = Ok 0.
Proof.
  intros Ha. rewrite i2d_int_as_str, (str_of_int_nonneg a Ha).
  destruct (digits_of_spec a Ha) as (Hdg & _ & Hne & _).
  rewrite i2d_zero_decimals by (auto using digits_no_point). cbn [bind].
  pose proof (d2i_point [] (str_or (rstrip "0" (digits_of a)) ["0"]) 0) as H.
  cbn [app] in H. rewrite H; [reflexivity | reflexivity | | lia].
  apply str_or_digits, rstrip_digits; assumption.
Qed.

(** ** The claims on the two conversions *)

Lemma all_zeros_firstn (n : nat) (s : str) :
  all_zeros s = true -> all_zeros (firstn n s) = true.
Proof.
  revert n; induction s as [|c s IH]; intros [|n] H; try reflexivity.
  apply all_zeros_cons in H as [-> Hs]. cbn [firstn].
  apply all_zeros_cons. auto.
Qed.

Lemma all_zeros_value (s : str) : all_zeros s = true -> dec_value s = 0.
Proof.
  intros H. rewrite (all_zeros_repeat s H). apply dec_value_repeat0.
Qed.

(** C1: the specification states the round trip [divisible_to_indivisible
    (indivisible_to_divisible (a, d), d) = a] for every [a >= 0] and every
    [d >= 0], [d = 0] included.  At [d = 0] the code turns 5 into [".5"] and
    back into 0: the amount is lost.  ([roundtrip_positive_decimals] has the round
    trip for [d >= 1], [roundtrip_zero_decimals] the loss for every [a].) *)
Theorem C1_roundtrip_at_zero_decimals :
  indivisible_to_divisible (PInt 5) 0 = Ok (lit ".5") /\
  divisible_to_indivisible (PStr (lit ".5")) 0 = Ok 0 /\
  (r <- indivisible_to_divisible (PInt 5) 0 ;;
   divisible_to_indivisible (PStr r) 0) = Ok 0.
Proof. vm_compute. auto. Qed.

(** C2: for digit strings [ip] and [fp] and [decimals >= 0],
    [divisible_to_indivisible] of ["ip.fp"] is the integer read from [ip]
    followed by [fp] cut (not rounded) to at most [decimals] digits and
    padded with zeros to exactly [decimals] digits, that is the floor of the
    decimal value times [10 ^ decimals]; of ["ip"] alone it is [ip] followed
    by [decimals] zeros; when [ip] is ["0"] it is the integer read from the
    cut fraction without its leading zeros followed by trailing zeros, the
    three runs totalling [decimals] digits, and 0 when the fraction is all
    zeros; [divisible_to_indivisible("0", d)] is 0. *)
Theorem C2_divisible_to_indivisible_contract (ip fp : str) (d : Z) :
  all_digits ip = true -> all_digits fp = true -> 0 <= d ->
  let k := Z.to_nat d in
  let cut := firstn k fp in
  let striped := lstrip "0" cut in
  let leading := (length cut - length striped)%nat in
  (divisible_to_indivisible (PStr (ip ++ "." :: fp)) d
   = Ok (dec_value (ip ++ zero_pad_right cut k)) /\
   (length cut <= k)%nat /\ length (zero_pad_right cut k) = k /\
   dec_value (ip ++ zero_pad_right cut k)
   = dec_value (ip ++ fp) * 10 ^ d / 10 ^ len fp) /\
  divisible_to_indivisible (PStr ip) d = Ok (dec_value (ip ++ repeat "0" k)) /\
  (ip = ["0"] ->
   divisible_to_indivisible (PStr (ip ++ "." :: fp)) d
   = Ok (dec_value (striped ++ repeat "0" (k - leading - length striped))) /\
   (leading + length striped + (k - leading - length striped) = k)%nat /\
   (all_zeros fp = true ->
    divisible_to_indivisible (PStr (ip ++ "." :: fp)) d = Ok 0)) /\
  divisible_to_indivisible (PStr ["0"]) d = Ok 0.
Proof.
  intros Hip Hfp Hd k cut striped leading.
  assert (Hcut : (length cut <= k)%nat) by (apply firstn_le_length).
  assert (Hst : (length striped <= length cut)%nat) by apply lstrip_length.
  split; [|split; [|split]].
  - repeat split.
    + apply d2i_point; assumption.
    + exact Hcut.
    + apply zero_pad_right_length; exact Hcut.
    + unfold cut. rewrite truncated_value by assumption.
      unfold k. rewrite Z2Nat.id by assumption. reflexivity.
  - apply d2i_plain; assumption.
  - intros ->. rewrite d2i_point by assumption.
    fold k. fold cut.
    assert (E : dec_value (["0"] ++ zero_pad_right cut k)
                = dec_value (striped ++ repeat "0" (k - leading - length striped))).
    { change (["0"] ++ zero_pad_right cut k) with ("0" :: zero_pad_right cut k).
      rewrite dec_value_cons. unfold zero_pad_right, striped.
      rewrite !dec_value_pad, lstrip_zero_value.
      change (digit_val "0") with 0. fold striped.
      replace (k - leading - length striped)%nat with (k - length cut)%nat
        by (unfold leading; lia).
      lia. }
    repeat split.
    + rewrite E. reflexivity.
    + unfold leading. lia.
    + intros Hz. f_equal.
      change (["0"] ++ zero_pad_right cut k) with ("0" :: zero_pad_right cut k).
      rewrite dec_value_cons. unfold zero_pad_right.
      rewrite dec_value_pad.
      rewrite (all_zeros_value cut) by (apply all_zeros_firstn; assumption).
      change (digit_val "0") with 0. lia.
  - rewrite d2i_plain by (reflexivity || assumption).
    change (["0"] ++ repeat "0" (Z.to_nat d)) with (repeat "0" (S (Z.to_nat d))).
    rewrite dec_value_repeat0. reflexivity.
Qed.

Lemma C2_witness :
  divisible_to_indivisible (PStr (lit "12.3456")) 2 = Ok 1234 /\
  divisible_to_indivisible (PStr (lit "12")) 2 = Ok 1200.
Proof.
  pose proof (C2_divisible_to_indivisible_contract (lit "12") (lit "3456") 2
                eq_refl eq_refl ltac:(lia)) as H.
  cbv zeta in H. destruct H as ((H1 & _) & H2 & _).
  split; [exact H1 | exact H2].
Defined.

(** C3: the specification has [indivisible_to_divisible] insert the point
    [decimals] digits from the right for every [decimals >= 0].  At
    [decimals = 0] the specified string for 5 is ["5.0"] and the code
    returns [".5"]; for 10 it returns [".1"].
    ([i2d_contract_positive_decimals] and [i2d_contract_int] have the
    contract for [decimals >= 1].) *)
Theorem C3_point_at_zero_decimals :
  indivisible_to_divisible (PInt 5) 0 = Ok (lit ".5") /\
  point_inserted (str_of_int 5) 0 = lit "5.0" /\
  indivisible_to_divisible (PInt 10) 0 = Ok (lit ".1") /\
  point_inserted (str_of_int 10) 0 = lit "10.0".
Proof. vm_compute. auto. Qed.

(** The examples of the specification. *)
Example i2d_one_unit :
  indivisible_to_divisible (PInt 10000000) 7 = Ok (lit "1.0").
Proof. vm_compute. reflexivity. Qed.

Example i2d_one_stroop :
  indivisible_to_divisible (PInt 1) 7 = Ok (lit "0.0000001").
Proof. vm_compute. reflexivity. Qed.

Example d2i_one_unit :
  divisible_to_indivisible (PStr (lit "1")) 7 = Ok 10000000.
Proof. vm_compute. reflexivity. Qed.

Example d2i_one_stroop :
  divisible_to_indivisible (PStr (lit "0.0000001")) 7 = Ok 1.
Proof. vm_compute. reflexivity. Qed.

Example units_to_stroops_hundred :
  units_to_stroops (PStr (lit "100")) = Ok 1000000000.
Proof. vm_compute. reflexivity. Qed.

Example stroops_to_units_hundred :
  conversion.stroops_to_units (PInt 1000000000) = Ok (lit "100.0").
Proof. vm_compute. reflexivity. Qed.

Example eth_to_wei_one_and_a_half :
  eth_to_wei (PStr (lit "1.5")) = Ok 1500000000000000000.
Proof. vm_compute. reflexivity. Qed.

(** ** Which exceptions the conversions raise *)

Lemma bind_raise {A B : Type} (r : result A) (k : A -> result B) (e : exn) :
  bind r k = Raise e -> r = Raise e \/ exists a, r = Ok a /\ k a = Raise e.
Proof.
  destruct r as [a | e']; simpl; intros H.
  - right. exists a. auto.
  - left. congruence.
Qed.

Ltac split_bind H :=
  let a := fresh "a" in
  let Ha := fresh "Ha" in
  apply bind_raise in H; destruct H as [H | (a & Ha & H)].

Lemma unpack2_raise (parts : list str) (e : exn) :
  unpack2 parts = Raise e -> e = ValueError.
Proof.
  destruct parts as [|a [|b [|c r]]]; simpl; congruence.
Qed.

Lemma format_fill0_raise (al : align) (s : str) (w : Z) (e : exn) :
  format_fill0 al s w = Raise e -> e = ValueError.
Proof. unfold format_fill0. destruct (w <? 0); congruence. Qed.

Lemma int_of_str_raise (s : str) (e : exn) :
  int_of_str s = Raise e -> e = ValueError.
Proof.
  unfold int_of_str. destruct (take_sign (strip_space s)) as [neg body].
  destruct (drop_underscores None body) as [[|c r]|]; try congruence.
  destruct (forallb is_digit (c :: r)); congruence.
Qed.

Lemma float_of_str_raise (s : str) (e : exn) :
  float_of_str s = Raise e -> e = ValueError.
Proof.
  unfold float_of_str.
  destruct (drop_underscores None (strip_space s)) as [t|]; [|congruence].
  destruct (take_sign t) as [neg body].
  destruct (_ || _); [congruence|].
  destruct (str_eqb _ _); [congruence|].
  destruct (span_digits body) as [ip rest].
  destruct (match rest with
            | [] => ([], [])
            | c :: r => if Ascii.eqb c "." then span_digits r else ([], rest)
            end) as [fp rest'].
  destruct (ip ++ fp); [congruence|].
  destruct (exponent_of rest'); congruence.
Qed.

Lemma round_raise (x : pyfloat) (e : exn) :
  round x = Raise e -> e = ValueError \/ e = OverflowError.
Proof. destruct x; simpl; intros H; inversion H; auto. Qed.

Lemma round_float_raise (s : str) (e : exn) :
  round_float s = Raise e -> e = ValueError \/ e = OverflowError.
Proof.
  unfold round_float. intros H. split_bind H.
  - left. eapply float_of_str_raise; eauto.
  - eapply round_raise; eauto.
Qed.

Lemma int_mul_raise (n : Z) (v : pyval) (e : exn) :
  int_mul n v = Raise e -> e = TypeError.
Proof. destruct v; simpl; congruence. Qed.

Lemma checked_str_raise (v : pyval) (e : exn) :
  checked_str v = Raise e -> e = TypeError /\ refused v.
Proof. destruct v; simpl; intros H; inversion H; auto. Qed.

Lemma checked_str_refused (v : pyval) :
  refused v -> checked_str v = Raise TypeError.
Proof. destruct v; simpl; tauto. Qed.

(** After the type guard, [divisible_to_indivisible] raises nothing but a
    ValueError. *)
Lemma d2i_raise (v : pyval) (d : Z) (e : exn) :
  divisible_to_indivisible v d = Raise e ->
  (e = TypeError /\ refused v) \/ (e = ValueError /\ ~ refused v).
Proof.
  unfold divisible_to_indivisible. intros H. split_bind H.
  { left. eapply checked_str_raise; eauto. }
  right. split.
  2: { intros R. rewrite (checked_str_refused v R) in Ha. discriminate. }
  split_bind H.
  { destruct (contains DECIMAL_POINT a); [|discriminate].
    split_bind H; [|discriminate]. eapply unpack2_raise; eauto. }
  split_bind H.
  { destruct (negb _); [|discriminate].
    split_bind H; [|discriminate]. eapply format_fill0_raise; eauto. }
  eapply int_of_str_raise; eauto.
Qed.

(** And so does [indivisible_to_divisible]. *)
Lemma i2d_raise (v : pyval) (d : Z) (e : exn) :
  indivisible_to_divisible v d = Raise e ->
  (e = TypeError /\ refused v) \/ (e = ValueError /\ ~ refused v).
Proof.
  unfold indivisible_to_divisible. intros H. split_bind H.
  { left. eapply checked_str_raise; eauto. }
  right. split.
  2: { intros R. rewrite (checked_str_refused v R) in Ha. discriminate. }
  split_bind H.
  { destruct (d <? len a); [discriminate|].
    split_bind H; [|discriminate]. eapply format_fill0_raise; eauto. }
  split_bind H; [|discriminate]. eapply unpack2_raise; eauto.
Qed.

(** C8: for every [decimals >= 0] each of the two conversions raises a
    TypeError exactly when the amount is neither a string nor an int that is
    not a bool; [True] and [False] raise it. *)
Theorem C8_type_error_exactly (v : pyval) (d : Z) :
  0 <= d ->
  (divisible_to_indivisible v d = Raise TypeError <-> refused v) /\
  (indivisible_to_divisible v d = Raise TypeError <-> refused v) /\
  (forall b, divisible_to_indivisible (PBool b) d = Raise TypeError /\
             indivisible_to_divisible (PBool b) d = Raise TypeError).
Proof.
  intros _. split; [|split].
  - split.
    + intros H. apply d2i_raise in H as [[_ R] | [E _]]; [exact R | discriminate].
    + intros R. unfold divisible_to_indivisible.
      rewrite (checked_str_refused v R). reflexivity.
  - split.
    + intros H. apply i2d_raise in H as [[_ R] | [E _]]; [exact R | discriminate].
    + intros R. unfold indivisible_to_divisible.
      rewrite (checked_str_refused v R). reflexivity.
  - intros b. split; reflexivity.
Qed.

Lemma C8_witness :
  (divisible_to_indivisible (PBool true) 7 = Raise TypeError <-> refused (PBool true)) /\
  divisible_to_indivisible (POther "float") 7 = Raise TypeError /\
  indivisible_to_divisible (PBool false) 7 = Raise TypeError.
Proof.
  split; [|split].
  - exact (proj1 (C8_type_error_exactly (PBool true) 7 ltac:(lia))).
  - apply (proj1 (C8_type_error_exactly (POther "float") 7 ltac:(lia))). exact I.
  - apply (proj1 (proj2 (C8_type_error_exactly (PBool false) 7 ltac:(lia)))). exact I.
Defined.

(** ** [float] of a decimal numeral *)

Lemma digit_not_letter (c : ascii) :
  is_digit c = true -> lower c = c /\ c <> "i" /\ c <> "n".
Proof.
  destruct c as [[] [] [] [] [] [] [] []]; vm_compute;
    intuition congruence.
Qed.

Lemma drop_underscores_none (s : str) (prev : option ascii) :
  contains "_" s = false -> drop_underscores prev s = Some s.
Proof.
  revert prev. induction s as [|c s IH]; intros prev H; [reflexivity|].
  rewrite contains_cons in H. apply orb_false_iff in H as [Hc Hs].
  cbn [drop_underscores]. rewrite Ascii.eqb_sym, Hc, (IH _ Hs). reflexivity.
Qed.

Lemma digits_no_underscore (s : str) :
  all_digits s = true -> contains "_" s = false.
Proof.
  induction s as [|c s IH]; [reflexivity|].
  rewrite all_digits_cons, contains_cons. intros H.
  apply andb_true_iff in H as [Hc Hs].
  destruct (digit_facts c Hc) as (_ & E & _).
  rewrite Ascii.eqb_sym, E. simpl. auto.
Qed.

Lemma span_digits_all (s : str) :
  all_digits s = true -> span_digits s = (s, []).
Proof.
  induction s as [|c s IH]; [reflexivity|].
  rewrite all_digits_cons. intros H. apply andb_true_iff in H as [Hc Hs].
  cbn [span_digits]. rewrite Hc, (IH Hs). reflexivity.
Qed.

Lemma span_digits_stop (s r : str) (x : ascii) :
  all_digits s = true -> is_digit x = false ->
  span_digits (s ++ x :: r) = (s, x :: r).
Proof.
  intros Hs Hx. induction s as [|c s IH].
  - simpl app. cbn [span_digits]. rewrite Hx. reflexivity.
  - rewrite all_digits_cons in Hs. apply andb_true_iff in Hs as [Hc Hs].
    simpl app. cbn [span_digits]. rewrite Hc, (IH Hs). reflexivity.
Qed.

(** A numeral ["ci.cf"] with digits on both sides of the point is read as
    the binary64 number nearest to its decimal value. *)
Lemma float_of_decimal (ci cf : str) :
  all_digits ci = true -> all_digits cf = true -> ci <> [] -> cf <> [] ->
  float_of_str (ci ++ "." :: cf)
  = Ok (binary64_of_ratio false (dec_value (ci ++ cf)) (10 ^ len cf)).
Proof.
  intros Hci Hcf Nci Ncf. unfold float_of_str.
  assert (Es : strip_space (ci ++ "." :: cf) = ci ++ "." :: cf).
  { apply strip_space_ends; intros c Hc.
    - destruct ci as [|x ci']; [congruence|]. injection Hc as <-.
      rewrite all_digits_cons in Hci. apply andb_true_iff in Hci as [Hx _].
      apply digit_facts, Hx.
    - rewrite rev_app_distr in Hc. simpl rev in Hc.
      destruct (rev cf) as [|x r] eqn:Er.
      + apply (f_equal (@rev ascii)) in Er. rewrite rev_involutive in Er.
        simpl in Er. congruence.
      + simpl in Hc. injection Hc as <-. apply digit_facts.
        apply (digits_hd (x :: r)); [|reflexivity].
        rewrite <- Er, all_digits_rev. assumption. }
  rewrite Es.
  rewrite drop_underscores_none
    by (rewrite contains_app, contains_cons, !digits_no_underscore by assumption;
        reflexivity).
  destruct ci as [|x ci']; [congruence|].
  pose proof Hci as Hx. rewrite all_digits_cons in Hx.
  apply andb_true_iff in Hx as [Hx _].
  destruct (digit_facts x Hx) as (_ & _ & Em & Ep & _).
  destruct (digit_not_letter x Hx) as (El & Ni & Nn).
  simpl app. cbn [take_sign]. rewrite Em, Ep.
  cbn [map]. rewrite El.
  assert (Ew : forall w t, w <> x -> str_eqb (x :: t) (w :: lit "") = false
                                     /\ forall u, str_eqb (x :: t) (w :: u) = false).
  { intros w t Hw. split; [|intros u];
      (destruct (str_eqb _ _) eqn:E; [|reflexivity]);
      apply str_eqb_eq in E; congruence. }
  assert (E1 : str_eqb (x :: map lower (ci' ++ "." :: cf)) (lit "inf") = false).
  { apply (proj2 (Ew "i" _ (not_eq_sym Ni))). }
  assert (E2 : str_eqb (x :: map lower (ci' ++ "." :: cf)) (lit "infinity") = false).
  { apply (proj2 (Ew "i" _ (not_eq_sym Ni))). }
  assert (E3 : str_eqb (x :: map lower (ci' ++ "." :: cf)) (lit "nan") = false).
  { apply (proj2 (Ew "n" _ (not_eq_sym Nn))). }
  rewrite E1, E2, E3. cbn [orb].
  change (x :: ci' ++ "." :: cf) with ((x :: ci') ++ "." :: cf).
  rewrite span_digits_stop by (assumption || reflexivity).
  rewrite Ascii.eqb_refl, (span_digits_all cf Hcf).
  simpl app at 1. cbn [exponent_of].
  destruct (Z.leb_spec 0 (0 - len cf)) as [Hl | _].
  - destruct cf; [congruence|]. rewrite len_cons in Hl.
    pose proof (len_nonneg cf). lia.
  - replace (- (0 - len cf)) with (len cf) by lia. reflexivity.
Qed.

(** ** [currency_to_euro_cents] *)

Lemma split_two (sep : ascii) (s : str) :
  contains sep s = true -> exists a b rest, split sep s = a :: b :: rest.
Proof.
  intros H. pose proof (split_nonempty sep s) as Hne.
  destruct (split sep s) as [|a [|b rest]] eqn:E; [congruence | | eauto].
  assert (F : contains sep s = false) by (apply split_single; eauto).
  congruence.
Qed.

(** C6: when [eur_price] has no decimal point, [currency_to_euro_cents]
    raises an IndexError, whatever the amount and the decimals; when it has
    one, it does not raise an IndexError. *)
Theorem C6_index_error_without_point (amount : pyval) (eur_price : str) (decimals : Z) :
  (contains "." eur_price = false ->
   currency_to_euro_cents amount eur_price decimals = Raise IndexError) /\
  (contains "." eur_price = true ->
   currency_to_euro_cents amount eur_price decimals <> Raise IndexError).
Proof.
  unfold currency_to_euro_cents. split; intros Hp.
  - rewrite split_no_sep by assumption. reflexivity.
  - destruct (split_two "." eur_price Hp) as (a & b & rest & ->).
    cbn [index nth_error bind]. intros H.
    split_bind H.
    { apply d2i_raise in H. destruct H as [[? _] | [? _]]; discriminate. }
    split_bind H.
    { apply int_mul_raise in H. discriminate. }
    split_bind H.
    { apply i2d_raise in H. destruct H as [[? _] | [? _]]; discriminate. }
    apply round_float_raise in H. destruct H; discriminate.
Qed.

Lemma C6_witness :
  currency_to_euro_cents (PInt 100000000) (lit "30000") 8 = Raise IndexError /\
  currency_to_euro_cents (PInt 100000000) (lit "30000.00") 8 <> Raise IndexError.
Proof.
  split.
  - apply (proj1 (C6_index_error_without_point
                    (PInt 100000000) (lit "30000") 8)). reflexivity.
  - apply (proj2 (C6_index_error_without_point
                    (PInt 100000000) (lit "30000.00") 8)). reflexivity.
Defined.

(** With at least as many decimals as fractional digits nothing is cut:
    the digits are read as they stand, times a power of ten. *)
Lemma d2i_point_wide (ip fp : str) (d : Z) :
  all_digits ip = true -> all_digits fp = true -> len fp <= d ->
  divisible_to_indivisible (PStr (ip ++ "." :: fp)) d
  = Ok (dec_value (ip ++ fp) * 10 ^ (d - len fp)).
Proof.
  intros Hip Hfp Hd. pose proof (len_nonneg fp).
  rewrite d2i_point by (assumption || lia).
  rewrite firstn_all2 by (unfold len in Hd; lia).
  unfold zero_pad_right. rewrite app_assoc, dec_value_pad.
  do 3 f_equal. unfold len in *. lia.
Qed.

(** C5, as the code has it: one bitcoin (100000000 satoshi) at 30000.00 EUR
    is 3000000 euro cents.  The string that is rounded is ["3000000.0"]: no
    sub-cent part is lost. *)
Theorem C5_one_bitcoin_in_euro_cents :
  currency_to_euro_cents (PInt 100000000) (lit "30000.00") 8 = Ok 3000000 /\
  btc_to_euro_cents (PInt 100000000) (lit "30000.00") = Ok 3000000 /\
  divisible_to_indivisible (PStr (lit "30000.00")) 2 = Ok 3000000 /\
  indivisible_to_divisible (PInt (3000000 * 100000000)) (2 + 8 - 2)
  = Ok (lit "3000000.0").
Proof. vm_compute. auto. Qed.

(** C5, as the specification has it: the result is not within a rounding
    step of 3000000000. *)
Lemma C5_counterexample :
  ~ (exists r, currency_to_euro_cents (PInt 100000000) (lit "30000.00") 8 = Ok r /\
               Z.abs (r - 3000000000) <= 1).
Proof.
  intros (r & E & H). vm_compute in E. injection E as <-. lia.
Qed.

(** ** From euro cents to stroops *)

Lemma price_decimals_point (ip fp : str) :
  contains "." ip = false -> contains "." fp = false ->
  except_IndexError
    (fractional <- index (split "." (ip ++ "." :: fp)) 1 ;; Ok (len fractional))
    (Ok 0) = Ok (len fp).
Proof.
  intros Hip Hfp. rewrite split_at_sep, split_no_sep by assumption. reflexivity.
Qed.

Lemma price_decimals_plain (ip : str) :
  contains "." ip = false ->
  except_IndexError
    (fractional <- index (split "." ip) 1 ;; Ok (len fractional))
    (Ok 0) = Ok 0.
Proof. intros Hip. rewrite split_no_sep by assumption. reflexivity. Qed.

Lemma bul_as_xlm (euro_cents_amount : pyval) (price : str) :
  euro_cents_to_bul_stroops euro_cents_amount price
  = euro_cents_to_xlm_stroops euro_cents_amount price.
Proof. reflexivity. Qed.

(** C7: for an int amount [a >= 0] and a price made of digits that is not
    zero,
    [euro_cents_to_xlm_stroops] returns the floor of the quotient of
    [divisible_to_indivisible (a, 7 + p)] by [divisible_to_indivisible
    (price, p + 2)], where [p] is the number of fractional digits of a price
    ["ip.fp"] and 0 for a price without a point, which does not raise.
    The two operands are [a * 10 ^ (7 + p)] and the digits of the price
    times 100. *)
Theorem C7_euro_cents_to_xlm_stroops (a : Z) (ip fp : str) :
  0 <= a -> all_digits ip = true -> all_digits fp = true ->
  (0 < dec_value (ip ++ fp) ->
   let p := len fp in
   exists x y,
     divisible_to_indivisible (PInt a) (7 + p) = Ok x /\
     divisible_to_indivisible (PStr (ip ++ "." :: fp)) (p + 2) = Ok y /\
     0 < y /\
     euro_cents_to_xlm_stroops (PInt a) (ip ++ "." :: fp) = Ok (x / y) /\
     x = a * 10 ^ (7 + p) /\ y = dec_value (ip ++ fp) * 100) /\
  (0 < dec_value ip ->
   exists x y,
     divisible_to_indivisible (PInt a) (7 + 0) = Ok x /\
     divisible_to_indivisible (PStr ip) (0 + 2) = Ok y /\
     0 < y /\
     euro_cents_to_xlm_stroops (PInt a) ip = Ok (x / y) /\
     x = a * 10 ^ 7 /\ y = dec_value ip * 100).
Proof.
  intros _ Hip Hfp. pose proof (len_nonneg fp) as Hl. split.
  - intros Hpos p.
    exists (a * 10 ^ (7 + p)), (dec_value (ip ++ fp) * 100).
    assert (Ex : divisible_to_indivisible (PInt a) (7 + p) = Ok (a * 10 ^ (7 + p)))
      by (apply d2i_int; unfold p; lia).
    assert (Ey : divisible_to_indivisible (PStr (ip ++ "." :: fp)) (p + 2)
                 = Ok (dec_value (ip ++ fp) * 100)).
    { unfold p. rewrite d2i_point_wide by (assumption || lia).
      replace (len fp + 2 - len fp) with 2 by lia. reflexivity. }
    repeat split; try assumption; try lia.
    unfold euro_cents_to_xlm_stroops.
    rewrite price_decimals_point by (apply digits_no_point; assumption).
    cbn [bind]. unfold STELLAR_DECIMALS. fold p. rewrite Ex, Ey. cbn [bind].
    unfold floordiv. destruct (Z.eqb_spec (dec_value (ip ++ fp) * 100) 0); [lia|].
    reflexivity.
  - intros Hpos.
    exists (a * 10 ^ 7), (dec_value ip * 100).
    assert (Ex : divisible_to_indivisible (PInt a) (7 + 0) = Ok (a * 10 ^ 7))
      by (apply d2i_int; lia).
    assert (Ey : divisible_to_indivisible (PStr ip) (0 + 2) = Ok (dec_value ip * 100))
      by (apply d2i_plain_value; [assumption | lia]).
    repeat split; try assumption; try lia.
    unfold euro_cents_to_xlm_stroops.
    rewrite price_decimals_plain by (apply digits_no_point; assumption).
    cbn [bind]. unfold STELLAR_DECIMALS. rewrite Ex, Ey. cbn [bind].
    unfold floordiv. destruct (Z.eqb_spec (dec_value ip * 100) 0); [lia|].
    reflexivity.
Qed.

Lemma C7_witness :
  euro_cents_to_xlm_stroops (PInt 100) (lit "5") = Ok 2000000 /\
  euro_cents_to_xlm_stroops (PInt 100) (lit "0.25") = Ok 40000000.
Proof.
  split.
  - destruct (proj2 (C7_euro_cents_to_xlm_stroops 100 (lit "5") []
                       ltac:(lia) eq_refl eq_refl) eq_refl)
      as (x & y & _ & _ & _ & E & -> & ->).
    exact E.
  - destruct (proj1 (C7_euro_cents_to_xlm_stroops 100 (lit "0") (lit "25")
                       ltac:(lia) eq_refl eq_refl) eq_refl)
      as (x & y & _ & _ & _ & E & -> & ->).
    exact E.
Defined.

(** C9: when the price is made of zeros only, with or without a point, the
    fictitious integer price is 0 and both functions raise a
    ZeroDivisionError, for every int amount and for every amount whose own
    conversion succeeds. *)
Theorem C9_zero_price_division (ip fp : str) :
  all_zeros ip = true -> all_zeros fp = true ->
  let pointed := ip ++ "." :: fp in
  (forall a : Z,
      euro_cents_to_xlm_stroops (PInt a) pointed = Raise ZeroDivisionError /\
      euro_cents_to_xlm_stroops (PInt a) ip = Raise ZeroDivisionError /\
      euro_cents_to_bul_stroops (PInt a) pointed = Raise ZeroDivisionError /\
      euro_cents_to_bul_stroops (PInt a) ip = Raise ZeroDivisionError) /\
  (forall (v : pyval) (x : Z),
      divisible_to_indivisible v (STELLAR_DECIMALS + len fp) = Ok x ->
      euro_cents_to_xlm_stroops v pointed = Raise ZeroDivisionError /\
      euro_cents_to_bul_stroops v pointed = Raise ZeroDivisionError) /\
  (forall (v : pyval) (x : Z),
      divisible_to_indivisible v (STELLAR_DECIMALS + 0) = Ok x ->
      euro_cents_to_xlm_stroops v ip = Raise ZeroDivisionError /\
      euro_cents_to_bul_stroops v ip = Raise ZeroDivisionError).
Proof.
  intros Zip Zfp pointed. pose proof (len_nonneg fp) as Hl.
  pose proof (all_zeros_digits ip Zip) as Hip.
  pose proof (all_zeros_digits fp Zfp) as Hfp.
  assert (Hv : dec_value (ip ++ fp) = 0).
  { rewrite dec_value_app, (all_zeros_value ip Zip), (all_zeros_value fp Zfp). lia. }
  assert (Ep : divisible_to_indivisible (PStr pointed) (len fp + 2) = Ok 0).
  { unfold pointed. rewrite d2i_point_wide by (assumption || lia).
    rewrite Hv. reflexivity. }
  assert (Ei : divisible_to_indivisible (PStr ip) (0 + 2) = Ok 0).
  { rewrite d2i_plain_value by (assumption || lia).
    rewrite (all_zeros_value ip Zip). reflexivity. }
  assert (P : forall v x,
             divisible_to_indivisible v (STELLAR_DECIMALS + len fp) = Ok x ->
             euro_cents_to_xlm_stroops v pointed = Raise ZeroDivisionError).
  { intros v x Ex. unfold euro_cents_to_xlm_stroops, pointed.
    rewrite price_decimals_point by (apply digits_no_point; assumption).
    cbn [bind]. rewrite Ex. cbn [bind]. fold pointed. rewrite Ep. reflexivity. }
  assert (Q : forall v x,
             divisible_to_indivisible v (STELLAR_DECIMALS + 0) = Ok x ->
             euro_cents_to_xlm_stroops v ip = Raise ZeroDivisionError).
  { intros v x Ex. unfold euro_cents_to_xlm_stroops.
    rewrite price_decimals_plain by (apply digits_no_point; assumption).
    cbn [bind]. rewrite Ex. cbn [bind]. rewrite Ei. reflexivity. }
  split; [|split].
  - intros a.
    assert (Ea : divisible_to_indivisible (PInt a) (STELLAR_DECIMALS + len fp)
                 = Ok (a * 10 ^ (STELLAR_DECIMALS + len fp)))
      by (apply d2i_int; unfold STELLAR_DECIMALS; lia).
    assert (Eb : divisible_to_indivisible (PInt a) (STELLAR_DECIMALS + 0)
                 = Ok (a * 10 ^ (STELLAR_DECIMALS + 0)))
      by (apply d2i_int; unfold STELLAR_DECIMALS; lia).
    repeat split;
      [exact (P _ _ Ea) | exact (Q _ _ Eb) | exact (P _ _ Ea) | exact (Q _ _ Eb)].
  - intros v x Ex. split; exact (P v x Ex).
  - intros v x Ex. split; exact (Q v x Ex).
Qed.

Lemma C9_witness :
  euro_cents_to_xlm_stroops (PInt 100) (lit "0.0") = Raise ZeroDivisionError /\
  euro_cents_to_bul_stroops (PInt 100) (lit "0") = Raise ZeroDivisionError.
Proof.
  destruct (C9_zero_price_division (lit "0") (lit "0") eq_refl eq_refl)
    as (H & _).
  destruct (H 100) as (H1 & _ & _ & H4). split; [exact H1 | exact H4].
Defined.

(** ** The two [stroops_to_units] *)

(** On an int that is not negative the two functions split the zero-padded
    numeral at the same place; [stellar_units] keeps the seven fractional
    digits, [conversion] strips the trailing zeros. *)
Lemma stroops_to_units_compared (n : Z) :
  0 <= n ->
  exists ip fp,
    stellar_units.stroops_to_units (PInt n) false
    = Ok (stellar_units.UStr (ip ++ "." :: fp)) /\
    length fp = 7%nat /\ all_digits ip = true /\ all_digits fp = true /\
    dec_value (ip ++ fp) = n /\
    conversion.stroops_to_units (PInt n)
    = Ok (ip ++ "." :: str_or (rstrip "0" fp) ["0"]).
Proof.
  intros Hn.
  destruct (digits_of_spec n Hn) as (Hdg & Hv & _).
  pose proof (digits_no_point _ Hdg) as Hnp.
  unfold stellar_units.stroops_to_units, conversion.stroops_to_units,
    indivisible_to_divisible.
  change (checked_str (PInt n)) with (Ok (str_of_int n)).
  cbn [isinstance_int isinstance_bool negb orb bind].
  rewrite (str_of_int_nonneg n Hn).
  set (s := digits_of n) in *.
  unfold format_fill0, stellar_units.DEC, STELLAR_DECIMALS.
  change (7 <? 0) with false. cbv iota. cbn [bind].
  replace (Z.to_nat (7 - len s)) with (7 - length s)%nat by (unfold len; lia).
  destruct (Z.ltb_spec 7 (len s)) as [Hlong | Hshort]; cbn [bind].
  - replace (7 - length s)%nat with 0%nat by (unfold len in Hlong; lia).
    cbn [repeat app].
    destruct (Z.eqb_spec (len s) 7) as [E | _]; [lia|].
    unfold slice_to, slice_from. rewrite slice_bound_neg by lia.
    change (Z.to_nat 7) with 7%nat.
    change (["."] ++ skipn (length s - 7) s) with ("." :: skipn (length s - 7) s).
    exists (firstn (length s - 7) s), (skipn (length s - 7) s).
    rewrite split_at_sep by (apply contains_firstn; assumption).
    rewrite split_no_sep by (apply contains_skipn; assumption).
    cbn [unpack2 bind fst snd].
    repeat split.
    + rewrite length_skipn. unfold len in Hlong. lia.
    + apply all_digits_firstn; assumption.
    + apply all_digits_skipn; assumption.
    + rewrite firstn_skipn. exact Hv.
  - set (padded := repeat "0" (7 - length s) ++ s).
    assert (Hlen : length padded = 7%nat).
    { unfold padded. rewrite length_app, repeat_length.
      unfold len in Hshort. lia. }
    destruct (Z.eqb_spec (len padded) 7) as [_ | E]; [|unfold len in E; lia].
    change (lit "0." ++ padded) with (["0"] ++ "." :: padded).
    exists ["0"], padded.
    rewrite split_at_sep by reflexivity.
    rewrite split_no_sep
      by (unfold padded; rewrite contains_app, contains_repeat0; assumption).
    cbn [unpack2 bind fst snd].
    repeat split.
    + exact Hlen.
    + unfold padded. rewrite all_digits_app, all_digits_repeat0. assumption.
    + change (["0"] ++ padded) with (repeat "0" 1 ++ padded).
      rewrite dec_value_lead. unfold padded. rewrite dec_value_lead. exact Hv.
Qed.

(** C10: [stellar_units.stroops_to_units] is not
    [conversion.stroops_to_units].  On every int that is not negative it
    returns all seven fractional digits, trailing zeros included, where
    [conversion] strips them: for 1000000000 the results are ["100.0000000"]
    and ["100.0"].  It refuses every string with a TypeError, while
    [conversion] converts the string ["1000000000"]. *)
Theorem C10_stroops_to_units_differ :
  (forall n : Z,
      0 <= n ->
      exists ip fp,
        stellar_units.stroops_to_units (PInt n) false
        = Ok (stellar_units.UStr (ip ++ "." :: fp)) /\
        length fp = 7%nat /\ all_digits ip = true /\ all_digits fp = true /\
        conversion.stroops_to_units (PInt n)
        = Ok (ip ++ "." :: str_or (rstrip "0" fp) ["0"])) /\
  stellar_units.stroops_to_units (PInt 1000000000) false
  = Ok (stellar_units.UStr (lit "100.0000000")) /\
  conversion.stroops_to_units (PInt 1000000000) = Ok (lit "100.0") /\
  (forall (s : str) (numeric_representation : bool),
      stellar_units.stroops_to_units (PStr s) numeric_representation
      = Raise TypeError) /\
  conversion.stroops_to_units (PStr (lit "1000000000")) = Ok (lit "100.0").
Proof.
  split; [|split; [|split; [|split]]].
  - intros n Hn.
    destruct (stroops_to_units_compared n Hn)
      as (ip & fp & E1 & Hl & Hip & Hfp & _ & E2).
    exists ip, fp. auto.
  - vm_compute. reflexivity.
  - vm_compute. reflexivity.
  - intros s b. reflexivity.
  - vm_compute. reflexivity.
Qed.

Lemma C10_witness :
  exists ip fp,
    stellar_units.stroops_to_units (PInt 1230000) false
    = Ok (stellar_units.UStr (ip ++ "." :: fp)) /\
    length fp = 7%nat /\ all_digits ip = true /\ all_digits fp = true /\
    conversion.stroops_to_units (PInt 1230000)
    = Ok (ip ++ "." :: str_or (rstrip "0" fp) ["0"]).
Proof.
  exact (proj1 C10_stroops_to_units_differ 1230000 ltac:(lia)).
Defined.

(** * Further properties of the conversions *)

(** ** Amounts with misplaced decimal points *)

Lemma split_length (sep : ascii) (s : str) :
  length (split sep s) = S (count_occ ascii_dec s sep).
Proof.
  induction s as [|c s IH]; [reflexivity|].
  cbn [split]. destruct (Ascii.eqb_spec c sep) as [-> | Hc].
  - rewrite count_occ_cons_eq by reflexivity. simpl. rewrite IH. reflexivity.
  - rewrite count_occ_cons_neq by assumption. rewrite <- IH.
    pose proof (split_nonempty sep s) as Hne.
    destruct (split sep s); [congruence | reflexivity].
Qed.

Lemma unpack2_many (parts : list str) :
  (3 <= length parts)%nat -> unpack2 parts = Raise ValueError.
Proof.
  destruct parts as [|a [|b [|c r]]]; simpl; intros H; try lia. reflexivity.
Qed.

Lemma count_point_contains (s : str) :
  contains "." s = true -> (1 <= count_occ ascii_dec s ".")%nat.
Proof.
  intros H.
  destruct (count_occ ascii_dec s ".") as [|n] eqn:E; [|lia].
  apply count_occ_not_In in E.
  unfold contains in H. apply existsb_exists in H as (x & Hin & Hx).
  apply Ascii.eqb_eq in Hx. subst x. contradiction.
Qed.

Lemma contains_count_point (s : str) :
  (1 <= count_occ ascii_dec s ".")%nat -> contains "." s = true.
Proof.
  intros H. destruct (contains "." s) eqn:E; [reflexivity|].
  rewrite (count_point_no s E) in H. lia.
Qed.

Lemma d2i_many_points (s : str) (d : Z) :
  (2 <= count_occ ascii_dec s ".")%nat ->
  divisible_to_indivisible (PStr s) d = Raise ValueError.
Proof.
  intros H. unfold divisible_to_indivisible.
  change (checked_str (PStr s)) with (Ok s). cbn [bind]. unfold DECIMAL_POINT.
  rewrite contains_count_point by lia.
  rewrite unpack2_many by (rewrite split_length; lia). reflexivity.
Qed.

(** A string with two decimal points or more is refused by
    [divisible_to_indivisible] with a ValueError, whatever the decimals,
    and so it is by the per-asset wrappers. *)
Theorem d2i_two_points (s : str) (d : Z) :
  (2 <= count_occ ascii_dec s ".")%nat ->
  divisible_to_indivisible (PStr s) d = Raise ValueError /\
  conversion.units_to_stroops (PStr s) = Raise ValueError /\
  eth_to_wei (PStr s) = Raise ValueError /\
  btc_to_satoshi (PStr s) = Raise ValueError.
Proof.
  intros H. repeat split; apply d2i_many_points; assumption.
Qed.

Lemma d2i_two_points_witness :
  divisible_to_indivisible (PStr (lit "1.2.3")) 7 = Raise ValueError.
Proof. apply (proj1 (d2i_two_points (lit "1.2.3") 7 ltac:(vm_compute; lia))). Defined.

Lemma slices_join (s : str) (k : Z) : slice_to s k ++ slice_from s k = s.
Proof. unfold slice_to, slice_from. apply firstn_skipn. Qed.

(** A string that already has a decimal point is refused by
    [indivisible_to_divisible] with a ValueError, whatever the decimals:
    the point the code inserts makes a second one. *)
Theorem i2d_divisible_amount (s : str) (d : Z) :
  contains "." s = true ->
  indivisible_to_divisible (PStr s) d = Raise ValueError.
Proof.
  intros H. apply count_point_contains in H.
  unfold indivisible_to_divisible.
  change (checked_str (PStr s)) with (Ok s). cbn [bind].
  destruct (Z.ltb_spec d (len s)) as [Hlt | Hge]; cbn [bind].
  - rewrite unpack2_many; [reflexivity|].
    rewrite split_length, !count_occ_app.
    pose proof (f_equal (fun x => count_occ ascii_dec x ".")
                  (slices_join s (- d))) as E.
    cbv beta in E. rewrite count_occ_app in E.
    change (count_occ ascii_dec ["."] ".") with 1%nat. lia.
  - unfold format_fill0. pose proof (len_nonneg s).
    destruct (Z.ltb_spec d 0); [lia|]. cbn [bind].
    rewrite unpack2_many; [reflexivity|].
    rewrite split_length, !count_occ_app.
    change (count_occ ascii_dec (lit "0.") ".") with 1%nat. lia.
Qed.

Lemma i2d_divisible_amount_witness :
  indivisible_to_divisible (PStr (lit "1.5")) 7 = Raise ValueError.
Proof. apply i2d_divisible_amount. reflexivity. Defined.

(** ** Int amounts and the per-asset wrappers *)

Lemma str_of_int_not_zero (n : Z) : n <> 0 -> str_eqb (str_of_int n) ["0"] = false.
Proof.
  intros Hn. destruct (str_eqb (str_of_int n) ["0"]) eqn:E; [|reflexivity].
  apply str_eqb_eq in E. destruct (Z.lt_ge_cases n 0) as [Hneg | Hpos].
  - rewrite (str_of_int_neg n Hneg) in E. discriminate.
  - rewrite (str_of_int_nonneg n Hpos) in E.
    destruct (digits_of_spec n Hpos) as (_ & Hv & _).
    rewrite E in Hv. vm_compute in Hv. congruence.
Qed.

Lemma str_of_int_no_point (n : Z) : contains "." (str_of_int n) = false.
Proof.
  destruct (Z.lt_ge_cases n 0) as [Hneg | Hpos].
  - rewrite (str_of_int_neg n Hneg), contains_cons.
    destruct (digits_of_spec (- n)) as (Hdg & _); [lia|].
    rewrite (digits_no_point _ Hdg). reflexivity.
  - rewrite (str_of_int_nonneg n Hpos).
    destruct (digits_of_spec n Hpos) as (Hdg & _).
    apply digits_no_point, Hdg.
Qed.

(** An int amount of either sign is multiplied by [10 ^ decimals] when
    [decimals >= 0].  With negative decimals the padding format is invalid:
    every int but 0 raises a ValueError, and 0 gives 0. *)
Theorem d2i_int_amounts (n d : Z) :
  (0 <= d -> divisible_to_indivisible (PInt n) d = Ok (n * 10 ^ d)) /\
  (d < 0 -> n <> 0 -> divisible_to_indivisible (PInt n) d = Raise ValueError) /\
  (d < 0 -> divisible_to_indivisible (PInt 0) d = Ok 0).
Proof.
  split; [apply d2i_int | split].
  - intros Hd Hn. unfold divisible_to_indivisible.
    change (checked_str (PInt n)) with (Ok (str_of_int n)).
    cbn [bind]. unfold DECIMAL_POINT.
    rewrite str_of_int_no_point. cbn [bind fst snd].
    rewrite (str_of_int_not_zero n Hn). cbn [negb].
    unfold format_fill0. destruct (Z.ltb_spec d 0); [reflexivity | lia].
  - intros Hd. unfold divisible_to_indivisible.
    change (checked_str (PInt 0)) with (Ok ["0"]).
    cbn [bind]. unfold DECIMAL_POINT.
    change (contains "." ["0"]) with false. cbn [bind fst snd].
    change (str_eqb ["0"] ["0"]) with true. cbn [negb bind].
    rewrite !str_mul_char.
    replace (Z.to_nat d) with 0%nat by lia. cbn [repeat lstrip].
    change (len []) with 0.
    replace (Z.to_nat (d - (0 - 0) - 0)) with 0%nat by lia. reflexivity.
Qed.

Lemma d2i_int_amounts_witness :
  divisible_to_indivisible (PInt (-5)) 2 = Ok (-500) /\
  divisible_to_indivisible (PInt 5) (-2) = Raise ValueError /\
  divisible_to_indivisible (PInt 0) (-2) = Ok 0.
Proof.
  split; [|split].
  - exact (proj1 (d2i_int_amounts (-5) 2) ltac:(lia)).
  - apply (proj1 (proj2 (d2i_int_amounts 5 (-2)))); lia.
  - apply (proj2 (proj2 (d2i_int_amounts 5 (-2)))); lia.
Defined.

(** Stroops, wei and satoshi survive the way to units, ether and bitcoin
    and back: the wrappers fix 7, 18 and 8 decimals, none of them 0. *)
Theorem asset_roundtrips (n : Z) :
  0 <= n ->
  (s <- conversion.stroops_to_units (PInt n) ;;
   conversion.units_to_stroops (PStr s)) = Ok n /\
  (s <- wei_to_eth (PInt n) ;; eth_to_wei (PStr s)) = Ok n /\
  (s <- satoshi_to_btc (PInt n) ;; btc_to_satoshi (PStr s)) = Ok n.
Proof.
  intros Hn.
  unfold conversion.stroops_to_units, conversion.units_to_stroops, wei_to_eth,
    eth_to_wei, satoshi_to_btc, btc_to_satoshi,
    STELLAR_DECIMALS, ETH_DECIMALS, BTC_DECIMALS.
  repeat split; apply roundtrip_positive_decimals; lia.
Qed.

Lemma asset_roundtrips_witness :
  (s <- wei_to_eth (PInt 1500000000000000000) ;; eth_to_wei (PStr s))
  = Ok 1500000000000000000.
Proof.
  exact (proj1 (proj2 (asset_roundtrips 1500000000000000000 ltac:(lia)))).
Defined.

(** From a decimal string to indivisible units and back: the string that
    comes back has no unnecessary trailing zero and denotes the amount cut
    to [decimals] fractional digits; when the amount has at most
    [decimals] fractional digits it denotes the same number. *)
Theorem divisible_roundtrip_value (ip fp : str) (d : Z) :
  all_digits ip = true -> all_digits fp = true -> 1 <= d ->
  exists ci cf,
    (n <- divisible_to_indivisible (PStr (ip ++ "." :: fp)) d ;;
     indivisible_to_divisible (PInt n) d) = Ok (ci ++ "." :: cf) /\
    all_digits ci = true /\ all_digits cf = true /\ ci <> [] /\
    (cf = ["0"] \/ last cf "0" <> "0") /\
    dec_value (ci ++ cf) * 10 ^ d
    = dec_value (ip ++ fp) * 10 ^ d / 10 ^ len fp * 10 ^ len cf /\
    (len fp <= d ->
     dec_value (ci ++ cf) * 10 ^ len fp = dec_value (ip ++ fp) * 10 ^ len cf).
Proof.
  intros Hip Hfp Hd.
  rewrite d2i_point by (assumption || lia). cbn [bind].
  set (n := dec_value (ip ++ zero_pad_right (firstn (Z.to_nat d) fp) (Z.to_nat d))).
  assert (Hn : 0 <= n).
  { apply dec_value_bounds. rewrite all_digits_app, Hip.
    apply zero_pad_right_digits, all_digits_firstn, Hfp. }
  assert (En : n = dec_value (ip ++ fp) * 10 ^ d / 10 ^ len fp).
  { unfold n. rewrite truncated_value by assumption.
    rewrite Z2Nat.id by lia. reflexivity. }
  destruct (i2d_contract_int n d Hn Hd)
    as (ci & cf & Ei & _ & _ & Hci & Hcf & Nci & Hz & Hv).
  exists ci, cf. repeat split; try assumption.
  - rewrite Hv, En. reflexivity.
  - intros Hle. pose proof (len_nonneg fp) as Hl.
    assert (Ex : n * 10 ^ len fp = dec_value (ip ++ fp) * 10 ^ d).
    { assert (Hpow : 10 ^ d = 10 ^ (d - len fp) * 10 ^ len fp).
      { rewrite <- Z.pow_add_r by lia. f_equal. lia. }
      rewrite En, Hpow, Z.mul_assoc, Z.div_mul by (apply Z.pow_nonzero; lia).
      ring. }
    assert (Hp : 0 < 10 ^ d) by (apply Z.pow_pos_nonneg; lia).
    apply (Z.mul_reg_r _ _ (10 ^ d)); [lia|].
    rewrite <- Z.mul_assoc, (Z.mul_comm (10 ^ len fp)), Z.mul_assoc, Hv.
    rewrite <- Z.mul_assoc, (Z.mul_comm (10 ^ len cf)), Z.mul_assoc, Ex. ring.
Qed.

Lemma divisible_roundtrip_value_witness :
  exists ci cf,
    (n <- divisible_to_indivisible (PStr (lit "12.3456")) 2 ;;
     indivisible_to_divisible (PInt n) 2) = Ok (ci ++ "." :: cf) /\
    dec_value (ci ++ cf) * 10 ^ 2 = 1234 * 10 ^ len cf.
Proof.
  destruct (divisible_roundtrip_value (lit "12") (lit "3456") 2
              eq_refl eq_refl ltac:(lia)) as (ci & cf & E & _ & _ & _ & _ & Hv & _).
  exists ci, cf. split; [exact E | exact Hv].
Defined.

(** ** Rounding to euro cents *)

Lemma rne_div_lower (a b F : Z) : 0 < b -> F * b <= a -> F <= rne_div a b.
Proof.
  intros Hb H. unfold rne_div.
  assert (Hq : F <= a / b) by (apply Z.div_le_lower_bound; lia).
  destruct (2 * (a mod b) <? b); [lia|].
  destruct (b <? 2 * (a mod b)); [lia|].
  destruct (Z.even (a / b)); lia.
Qed.

Lemma rne_div_upper (a b C : Z) : 0 < b -> a <= C * b -> rne_div a b <= C.
Proof.
  intros Hb H. unfold rne_div.
  pose proof (Z.div_mod a b ltac:(lia)) as E.
  pose proof (Z.mod_pos_bound a b Hb) as Hr.
  assert (Hq : a / b <= C) by (apply Z.div_le_upper_bound; lia).
  destruct (Z.ltb_spec (2 * (a mod b)) b) as [Hs | Hs]; [lia|].
  assert (Hlt : a / b < C) by nia.
  destruct (b <? 2 * (a mod b)); [lia|].
  destruct (Z.even (a / b)); lia.
Qed.

Lemma floor_log2_ratio_le (n d k : Z) :
  0 < n -> 0 < d -> 0 <= k -> n < d * 2 ^ (k + 1) ->
  floor_log2_ratio n d <= k.
Proof.
  intros Hn Hd Hk H. unfold floor_log2_ratio.
  set (g := Z.log2 n - Z.log2 d).
  destruct (Z.log2_spec n Hn) as [Hn1 _].
  destruct (Z.log2_spec d Hd) as [_ Hd2].
  pose proof (Z.log2_nonneg n). pose proof (Z.log2_nonneg d).
  assert (Hg : g <= k + 1).
  { assert (Hlt : 2 ^ Z.log2 n < 2 ^ (Z.succ (Z.log2 d) + (k + 1))).
    { rewrite Z.pow_add_r by lia.
      assert (0 < 2 ^ (k + 1)) by (apply Z.pow_pos_nonneg; lia). nia. }
    apply Z.pow_lt_mono_r_iff in Hlt; lia. }
  destruct (Z.leb_spec 0 g) as [Hg0 | Hg0].
  - destruct (Z.leb_spec (d * 2 ^ g) n) as [Ha | _]; [|lia].
    assert (Hlt : 2 ^ g < 2 ^ (k + 1)) by nia.
    apply Z.pow_lt_mono_r_iff in Hlt; lia.
  - destruct (d <=? n * 2 ^ (- g)); lia.
Qed.

(** Below [2 ^ 53] the two roundings, to binary64 and to an int, stay
    between the integers around the exact ratio. *)
Lemma round_binary64_bounds (n d F C : Z) :
  0 <= n -> 0 < d -> n < d * 2 ^ 53 -> F * d <= n -> n <= C * d ->
  exists r, round (binary64_of_ratio false n d) = Ok r /\ F <= r <= C.
Proof.
  intros Hn Hd Hlt HF HC. unfold binary64_of_ratio.
  destruct (Z.eqb_spec n 0) as [-> | Hnz].
  - exists 0. split; [reflexivity|]. nia.
  - assert (Hfl : floor_log2_ratio n d <= 52)
      by (apply floor_log2_ratio_le; lia).
    set (e := Z.max (floor_log2_ratio n d - 52) (-1074)).
    assert (He : -1074 <= e <= 0) by (unfold e; lia).
    replace ((971 <? e) || ((e =? 971) && (_ =? 2 ^ 53))) with false.
    2: { destruct (Z.ltb_spec 971 e); [lia|].
         destruct (Z.eqb_spec e 971); [lia | reflexivity]. }
    cbn [round].
    destruct (Z.leb_spec 0 e) as [He0 | He0].
    + assert (e = 0) by lia. subst e. rewrite H.
      change (2 ^ 0) with 1.
      exists (rne_div n (d * 1) * 1). split; [reflexivity|].
      pose proof (rne_div_lower n (d * 1) F ltac:(lia) ltac:(lia)).
      pose proof (rne_div_upper n (d * 1) C ltac:(lia) ltac:(lia)). lia.
    + assert (Hp : 0 < 2 ^ (- e)) by (apply Z.pow_pos_nonneg; lia).
      exists (rne_div (rne_div (n * 2 ^ (- e)) d) (2 ^ (- e))).
      split; [reflexivity|]. split.
      * apply rne_div_lower; [assumption|].
        apply rne_div_lower; [assumption|]. nia.
      * apply rne_div_upper; [assumption|].
        apply rne_div_upper; [assumption|]. nia.
Qed.

(** The cents returned for a price made of digits lie between any two
    integers that enclose the exact value [price * amount / 10 ^ k], where
    [k = p + decimals - 2], as long as that value is below [2 ^ 53]. *)
Lemma cte_between (a : Z) (ip fp : str) (d F C : Z) :
  0 <= a -> all_digits ip = true -> all_digits fp = true ->
  1 <= len fp + d - 2 ->
  let x := dec_value (ip ++ fp) * a in
  let K := 10 ^ (len fp + d - 2) in
  x < 2 ^ 53 * K -> F * K <= x -> x <= C * K ->
  exists c, currency_to_euro_cents (PInt a) (ip ++ "." :: fp) d = Ok c /\ F <= c <= C.
Proof.
  intros Ha Hip Hfp Hk x K Hx HF HC.
  assert (HK : 0 < K) by (apply Z.pow_pos_nonneg; lia).
  assert (Hx0 : 0 <= x).
  { apply Z.mul_nonneg_nonneg; [|assumption].
    apply dec_value_bounds. rewrite all_digits_app, Hip, Hfp. reflexivity. }
  destruct (i2d_contract_int x _ Hx0 Hk)
    as (ci & cf & Ei & _ & _ & Hci & Hcf & Nci & Hz & Hv).
  fold K in Hv.
  assert (Ncf : cf <> []).
  { destruct Hz as [-> | Hz]; [discriminate|]. intros ->. apply Hz. reflexivity. }
  set (V := dec_value (ci ++ cf)) in *. set (D := 10 ^ len cf) in *.
  assert (HD : 0 < D) by (apply Z.pow_pos_nonneg; [lia | apply len_nonneg]).
  assert (HV : 0 <= V)
    by (apply dec_value_bounds; rewrite all_digits_app, Hci, Hcf; reflexivity).
  destruct (round_binary64_bounds V D F C) as (c & Ec & Hc); try assumption.
  - apply (Z.mul_lt_mono_pos_r K); [assumption|]. rewrite Hv. nia.
  - apply (Z.mul_le_mono_pos_r _ _ K); [assumption|]. rewrite Hv. nia.
  - apply (Z.mul_le_mono_pos_r _ _ K); [assumption|]. rewrite Hv. nia.
  - exists c. split; [|exact Hc].
    unfold currency_to_euro_cents.
    rewrite split_at_sep, split_no_sep by (apply digits_no_point; assumption).
    cbn [index nth_error bind].
    rewrite d2i_point_wide by (assumption || lia).
    rewrite Z.sub_diag, Z.mul_1_r. cbn [bind int_mul].
    fold x. rewrite Ei. cbn [bind]. unfold round_float.
    rewrite float_of_decimal by assumption. exact Ec.
Qed.

(** [currency_to_euro_cents] is never off by a whole cent: for a price made
    of digits, an int amount that is not negative and [p + decimals - 2 >=
    1], when the exact value in cents is below [2 ^ 53] the result is that
    value rounded down or up, and the value itself when it is whole. *)
Theorem currency_to_euro_cents_within_a_cent (a : Z) (ip fp : str) (d : Z) :
  0 <= a -> all_digits ip = true -> all_digits fp = true ->
  1 <= len fp + d - 2 ->
  let x := dec_value (ip ++ fp) * a in
  let K := 10 ^ (len fp + d - 2) in
  x < 2 ^ 53 * K ->
  exists c,
    currency_to_euro_cents (PInt a) (ip ++ "." :: fp) d = Ok c /\
    x / K <= c <= x / K + 1 /\
    (x mod K = 0 -> c = x / K).
Proof.
  intros Ha Hip Hfp Hk x K Hx.
  assert (HK : 0 < K) by (apply Z.pow_pos_nonneg; lia).
  pose proof (Z.div_mod x K ltac:(lia)) as E.
  pose proof (Z.mod_pos_bound x K HK) as Hr.
  destruct (Z.eq_dec (x mod K) 0) as [Hz | Hnz].
  - destruct (cte_between a ip fp d (x / K) (x / K) Ha Hip Hfp Hk Hx)
      as (c & Ec & Hc); fold x K; try nia.
    exists c. repeat split; try lia. exact Ec.
  - destruct (cte_between a ip fp d (x / K) (x / K + 1) Ha Hip Hfp Hk Hx)
      as (c & Ec & Hc); fold x K; try nia.
    exists c. repeat split; try lia. exact Ec.
Qed.

Lemma currency_to_euro_cents_within_a_cent_witness :
  exists c,
    currency_to_euro_cents (PInt 150000000) (lit "0.015") 8 = Ok c /\
    2 <= c <= 3.
Proof.
  destruct (currency_to_euro_cents_within_a_cent 150000000 (lit "0") (lit "015") 8
              ltac:(lia) eq_refl eq_refl ltac:(vm_compute; discriminate)
              ltac:(vm_compute; reflexivity)) as (c & Ec & Hc & _).
  exists c. split; [exact Ec | exact Hc].
Defined.

(** ** From euro cents to stroops, and back *)

Lemma ecx_value (a : Z) (ip fp : str) :
  all_digits ip = true -> all_digits fp = true ->
  euro_cents_to_xlm_stroops (PInt a) (ip ++ "." :: fp)
  = floordiv (a * 10 ^ (7 + len fp)) (dec_value (ip ++ fp) * 100) /\
  euro_cents_to_xlm_stroops (PInt a) ip
  = floordiv (a * 10 ^ 7) (dec_value ip * 100).
Proof.
  intros Hip Hfp. pose proof (len_nonneg fp) as Hl.
  unfold euro_cents_to_xlm_stroops, STELLAR_DECIMALS. split.
  - rewrite price_decimals_point by (apply digits_no_point; assumption).
    cbn [bind]. rewrite d2i_int by lia. cbn [bind].
    rewrite d2i_point_wide by (assumption || lia). cbn [bind].
    replace (len fp + 2 - len fp) with 2 by lia. reflexivity.
  - rewrite price_decimals_plain by (apply digits_no_point; assumption).
    cbn [bind]. rewrite d2i_int by lia. cbn [bind].
    rewrite d2i_plain_value by (assumption || lia). reflexivity.
Qed.

(** The stroops bought are worth at most the euro cents given, and one
    stroop more would be worth more: with [P] the digits of a price with [p]
    fractional digits (a price of [P / 10 ^ p] EUR), the result [r]
    satisfies [r * P * 100 <= a * 10 ^ (7 + p) < (r + 1) * P * 100].  The
    same holds of [euro_cents_to_bul_stroops]. *)
Theorem euro_cents_to_stroops_bracket (a : Z) (ip fp : str) :
  0 <= a -> all_digits ip = true -> all_digits fp = true ->
  0 < dec_value (ip ++ fp) ->
  let P := dec_value (ip ++ fp) in
  exists r,
    euro_cents_to_xlm_stroops (PInt a) (ip ++ "." :: fp) = Ok r /\
    euro_cents_to_bul_stroops (PInt a) (ip ++ "." :: fp) = Ok r /\
    0 <= r /\
    r * (P * 100) <= a * 10 ^ (7 + len fp) < (r + 1) * (P * 100).
Proof.
  intros Ha Hip Hfp HP P. pose proof (len_nonneg fp) as Hl.
  set (x := a * 10 ^ (7 + len fp)). set (y := P * 100).
  assert (Hy : 0 < y) by (unfold y, P; lia).
  assert (E : euro_cents_to_xlm_stroops (PInt a) (ip ++ "." :: fp) = Ok (x / y)).
  { rewrite (proj1 (ecx_value a ip fp Hip Hfp)). fold P x y. unfold floordiv.
    destruct (Z.eqb_spec y 0); [lia | reflexivity]. }
  exists (x / y). split; [exact E | split; [exact E | split]].
  - apply Z.div_pos; [|assumption]. unfold x.
    apply Z.mul_nonneg_nonneg; [assumption|]. apply Z.pow_nonneg. lia.
  - pose proof (Z.div_mod x y ltac:(lia)).
    pose proof (Z.mod_pos_bound x y Hy). nia.
Qed.

Lemma euro_cents_to_stroops_bracket_witness :
  exists r,
    euro_cents_to_xlm_stroops (PInt 100) (lit "0.3") = Ok r /\
    r * 300 <= 100 * 10 ^ 8 < (r + 1) * 300.
Proof.
  destruct (euro_cents_to_stroops_bracket 100 (lit "0") (lit "3")
              ltac:(lia) eq_refl eq_refl eq_refl) as (r & E & _ & _ & H).
  exists r. split; [exact E | exact H].
Defined.

(** Zeros written after the fractional digits of the price, or a point
    followed by zeros after a price without one, change nothing in the
    stroops returned (nor in the error when the price is zero). *)
Theorem euro_cents_to_stroops_price_format (a : Z) (ip fp : str) (j : nat) :
  all_digits ip = true -> all_digits fp = true ->
  euro_cents_to_xlm_stroops (PInt a) (ip ++ "." :: fp ++ repeat "0" j)
  = euro_cents_to_xlm_stroops (PInt a) (ip ++ "." :: fp) /\
  euro_cents_to_xlm_stroops (PInt a) (ip ++ "." :: repeat "0" j)
  = euro_cents_to_xlm_stroops (PInt a) ip /\
  euro_cents_to_bul_stroops (PInt a) (ip ++ "." :: fp ++ repeat "0" j)
  = euro_cents_to_bul_stroops (PInt a) (ip ++ "." :: fp) /\
  euro_cents_to_bul_stroops (PInt a) (ip ++ "." :: repeat "0" j)
  = euro_cents_to_bul_stroops (PInt a) ip.
Proof.
  intros Hip Hfp.
  assert (G : forall f, all_digits f = true ->
            floordiv (a * 10 ^ (7 + len (f ++ repeat "0" j)))
              (dec_value (ip ++ f ++ repeat "0" j) * 100)
            = floordiv (a * 10 ^ (7 + len f)) (dec_value (ip ++ f) * 100)).
  { intros f Hf. pose proof (len_nonneg f) as Hl.
    rewrite app_assoc, dec_value_pad, len_app, len_repeat.
    set (P := dec_value (ip ++ f)).
    assert (Hp : 0 < 10 ^ Z.of_nat j) by (apply Z.pow_pos_nonneg; lia).
    replace (7 + (len f + Z.of_nat j)) with ((7 + len f) + Z.of_nat j) by lia.
    rewrite Z.pow_add_r by lia. unfold floordiv.
    destruct (Z.eqb_spec (P * 100) 0) as [E0 | N0].
    - destruct (Z.eqb_spec (P * 10 ^ Z.of_nat j * 100) 0); [reflexivity | nia].
    - destruct (Z.eqb_spec (P * 10 ^ Z.of_nat j * 100) 0); [nia|].
      f_equal.
      replace (P * 10 ^ Z.of_nat j * 100) with (P * 100 * 10 ^ Z.of_nat j) by ring.
      rewrite Z.mul_assoc. apply Z.div_mul_cancel_r; lia. }
  assert (E1 : euro_cents_to_xlm_stroops (PInt a) (ip ++ "." :: fp ++ repeat "0" j)
               = euro_cents_to_xlm_stroops (PInt a) (ip ++ "." :: fp)).
  { rewrite (proj1 (ecx_value a ip (fp ++ repeat "0" j) Hip
                      ltac:(rewrite all_digits_app, Hfp; apply all_digits_repeat0))).
    rewrite (proj1 (ecx_value a ip fp Hip Hfp)). apply G, Hfp. }
  assert (E2 : euro_cents_to_xlm_stroops (PInt a) (ip ++ "." :: repeat "0" j)
               = euro_cents_to_xlm_stroops (PInt a) ip).
  { rewrite (proj1 (ecx_value a ip (repeat "0" j) Hip (all_digits_repeat0 j))).
    rewrite (proj2 (ecx_value a ip [] Hip eq_refl)).
    pose proof (G [] eq_refl) as H. cbn [app] in H. rewrite H.
    rewrite app_nil_r. reflexivity. }
  repeat split; assumption.
Qed.

Lemma euro_cents_to_stroops_price_format_witness :
  euro_cents_to_xlm_stroops (PInt 100) (lit "0.250")
  = euro_cents_to_xlm_stroops (PInt 100) (lit "0.25") /\
  euro_cents_to_xlm_stroops (PInt 100) (lit "5.00")
  = euro_cents_to_xlm_stroops (PInt 100) (lit "5").
Proof.
  destruct (euro_cents_to_stroops_price_format 100 (lit "0") (lit "25") 1
              eq_refl eq_refl) as (H1 & _).
  destruct (euro_cents_to_stroops_price_format 100 (lit "5") [] 2
              eq_refl eq_refl) as (_ & H2 & _).
  split; [exact H1 | exact H2].
Defined.

(** Euro cents changed into stroops and the stroops changed back at the
    same price come back as the same number of cents or one cent less,
    for an amount below [2 ^ 53] cents and a price of at most 100000 EUR
    (and above zero) written with a decimal point. *)
Theorem euro_cents_roundtrip (a : Z) (ip fp : str) :
  0 <= a < 2 ^ 53 -> all_digits ip = true -> all_digits fp = true ->
  0 < dec_value (ip ++ fp) <= 10 ^ (len fp + 5) ->
  exists r c,
    euro_cents_to_xlm_stroops (PInt a) (ip ++ "." :: fp) = Ok r /\
    xlm_to_euro_cents (PInt r) (ip ++ "." :: fp) = Ok c /\
    a - 1 <= c <= a.
Proof.
  intros Ha Hip Hfp HP. pose proof (len_nonneg fp) as Hl.
  set (P := dec_value (ip ++ fp)) in *.
  set (K := 10 ^ (len fp + 5)) in *.
  assert (HK : 0 < K) by (apply Z.pow_pos_nonneg; lia).
  assert (EK : 10 ^ (7 + len fp) = 100 * K).
  { unfold K. replace (7 + len fp) with (2 + (len fp + 5)) by lia.
    rewrite Z.pow_add_r by lia. reflexivity. }
  set (x := a * 10 ^ (7 + len fp)). set (y := P * 100).
  assert (Hy : 0 < y) by (unfold y; lia).
  assert (E : euro_cents_to_xlm_stroops (PInt a) (ip ++ "." :: fp) = Ok (x / y)).
  { rewrite (proj1 (ecx_value a ip fp Hip Hfp)). fold P x y. unfold floordiv.
    destruct (Z.eqb_spec y 0); [lia | reflexivity]. }
  set (r := x / y) in *.
  assert (Hr0 : 0 <= r).
  { apply Z.div_pos; [|assumption]. unfold x.
    apply Z.mul_nonneg_nonneg; [lia|]. apply Z.pow_nonneg. lia. }
  assert (Hb : r * y <= x < (r + 1) * y).
  { pose proof (Z.div_mod x y ltac:(lia)).
    pose proof (Z.mod_pos_bound x y Hy). unfold r. nia. }
  unfold x, y in Hb. rewrite EK in Hb.
  destruct (cte_between r ip fp STELLAR_DECIMALS (a - 1) a Hr0 Hip Hfp)
    as (c & Ec & Hc); unfold STELLAR_DECIMALS; fold P;
    replace (len fp + 7 - 2) with (len fp + 5) by lia; fold K; try nia.
  exists r, c. split; [exact E | split; [exact Ec | exact Hc]].
Qed.

Lemma euro_cents_roundtrip_witness :
  exists r c,
    euro_cents_to_xlm_stroops (PInt 100) (lit "0.3") = Ok r /\
    xlm_to_euro_cents (PInt r) (lit "0.3") = Ok c /\
    99 <= c <= 100.
Proof.
  destruct (euro_cents_roundtrip 100 (lit "0") (lit "3")
              ltac:(lia) eq_refl eq_refl ltac:(vm_compute; intuition discriminate))
    as (r & c & H). exists r, c. exact H.
Defined.

(** ** [stellar_units.units_to_stroops] *)

Lemma unpack2_not_two (parts : list str) :
  length parts <> 2%nat -> unpack2 parts = Raise ValueError.
Proof.
  destruct parts as [|a [|b [|c r]]]; simpl; intros H;
    try reflexivity. congruence.
Qed.

(** [stellar_units.units_to_stroops] needs exactly one decimal point: any
    other string, a whole number such as ["100"] included, raises a
    ValueError in both modes, where [conversion.units_to_stroops] appends
    seven zeros to a string of digits. *)
Theorem stellar_units_to_stroops_needs_point (s : str) (numeric_representation : bool) :
  count_occ ascii_dec s "." <> 1%nat ->
  stellar_units.units_to_stroops (stellar_units.AmountStr s) numeric_representation
  = Raise ValueError /\
  (all_digits s = true ->
   conversion.units_to_stroops (PStr s) = Ok (dec_value s * 10 ^ 7)).
Proof.
  intros H. split.
  - unfold stellar_units.units_to_stroops.
    rewrite unpack2_not_two by (rewrite split_length; lia). reflexivity.
  - intros Hs. unfold conversion.units_to_stroops, STELLAR_DECIMALS.
    apply d2i_plain_value; [assumption | lia].
Qed.

Lemma stellar_units_to_stroops_needs_point_witness :
  stellar_units.units_to_stroops (stellar_units.AmountStr (lit "100")) true
  = Raise ValueError /\
  conversion.units_to_stroops (PStr (lit "100")) = Ok (100 * 10 ^ 7).
Proof.
  destruct (stellar_units_to_stroops_needs_point (lit "100") true
              ltac:(vm_compute; discriminate)) as (H1 & H2).
  split; [exact H1 | exact (H2 eq_refl)].
Defined.

(** On a positive amount ["ip.fp"] made of digits the int returned is read
    from the integer digits followed by the fractional digits, padded with
    zeros to seven digits but never cut. *)
Lemma stellar_units_to_stroops_value (ip fp : str) :
  all_digits ip = true -> all_digits fp = true -> 0 < dec_value (ip ++ fp) ->
  stellar_units.units_to_stroops (stellar_units.AmountStr (ip ++ "." :: fp)) true
  = Ok (stellar_units.StroopsInt (dec_value (ip ++ zero_pad_right fp 7))).
Proof.
  intros Hip Hfp Hpos. unfold stellar_units.units_to_stroops.
  rewrite split_at_sep, split_no_sep by (apply digits_no_point; assumption).
  cbn [unpack2 bind fst snd]. unfold stellar_units.DEC.
  assert (Hpad : Z.to_nat (7 - len fp) = (7 - length fp)%nat)
    by (unfold len; lia).
  destruct (str_eqb ip ["0"]) eqn:Eip; cbn [negb].
  - apply str_eqb_eq in Eip. subst ip. cbn [bind].
    rewrite str_mul_char.
    replace (7 - (len fp - len (lstrip "0" fp)) - len (lstrip "0" fp))
      with (7 - len fp) by lia.
    rewrite Hpad.
    assert (Hst : lstrip "0" fp <> []).
    { intros E. pose proof (lstrip_zero_value fp) as Hv. rewrite E in Hv.
      change (["0"] ++ fp) with ("0" :: fp) in Hpos.
      rewrite dec_value_cons in Hpos. change (digit_val "0") with 0 in Hpos.
      change (dec_value []) with 0 in Hv. lia. }
    rewrite int_of_str_digits.
    + cbn [bind]. do 2 f_equal. unfold zero_pad_right.
      change (["0"] ++ fp ++ repeat "0" (7 - length fp))
        with ("0" :: (fp ++ repeat "0" (7 - length fp))).
      rewrite dec_value_cons, !dec_value_pad, lstrip_zero_value.
      change (digit_val "0") with 0. lia.
    + rewrite all_digits_app, lstrip_zero_digits, all_digits_repeat0 by assumption.
      reflexivity.
    + destruct (lstrip "0" fp); [congruence | discriminate].
  - unfold format_fill0. change (7 <? 0) with false. cbv iota. cbn [bind].
    rewrite Hpad. fold (zero_pad_right fp 7).
    rewrite int_of_str_digits; [reflexivity | |].
    + rewrite all_digits_app, Hip. apply zero_pad_right_digits, Hfp.
    + intros E. apply app_eq_nil in E as [-> E]. unfold zero_pad_right in E.
      apply app_eq_nil in E as [-> _]. vm_compute in Hpos. discriminate.
Qed.

(** With at most seven fractional digits and a positive amount, the two
    [units_to_stroops] return the same number. *)
Theorem units_to_stroops_agree (ip fp : str) :
  all_digits ip = true -> all_digits fp = true -> 0 < dec_value (ip ++ fp) ->
  (length fp <= 7)%nat ->
  exists n,
    stellar_units.units_to_stroops (stellar_units.AmountStr (ip ++ "." :: fp)) true
    = Ok (stellar_units.StroopsInt n) /\
    conversion.units_to_stroops (PStr (ip ++ "." :: fp)) = Ok n /\
    n * 10 ^ len fp = dec_value (ip ++ fp) * 10 ^ 7.
Proof.
  intros Hip Hfp Hpos Hlen.
  exists (dec_value (ip ++ zero_pad_right fp 7)). split; [|split].
  - apply stellar_units_to_stroops_value; assumption.
  - unfold conversion.units_to_stroops, STELLAR_DECIMALS.
    rewrite d2i_point by (assumption || lia).
    change (Z.to_nat 7) with 7%nat. rewrite firstn_all2 by assumption.
    reflexivity.
  - unfold zero_pad_right. rewrite app_assoc, dec_value_pad.
    rewrite <- Z.mul_assoc, <- Z.pow_add_r by (unfold len; lia).
    do 2 f_equal. unfold len. lia.
Qed.

Lemma units_to_stroops_agree_witness :
  exists n,
    stellar_units.units_to_stroops (stellar_units.AmountStr (lit "1.5")) true
    = Ok (stellar_units.StroopsInt n) /\
    conversion.units_to_stroops (PStr (lit "1.5")) = Ok n /\
    n * 10 ^ 1 = 15 * 10 ^ 7.
Proof.
  exact (units_to_stroops_agree (lit "1") (lit "5") eq_refl eq_refl eq_refl
           ltac:(vm_compute; lia)).
Defined.

(** With more than seven fractional digits [stellar_units.units_to_stroops]
    keeps them all: the int returned is the amount times [10 ^ len fp],
    not times [10 ^ 7], while [conversion.units_to_stroops] cuts the
    fraction at seven digits. *)
Theorem stellar_units_to_stroops_not_cut (ip fp : str) :
  all_digits ip = true -> all_digits fp = true -> 0 < dec_value (ip ++ fp) ->
  (7 < length fp)%nat ->
  stellar_units.units_to_stroops (stellar_units.AmountStr (ip ++ "." :: fp)) true
  = Ok (stellar_units.StroopsInt (dec_value (ip ++ fp))) /\
  conversion.units_to_stroops (PStr (ip ++ "." :: fp))
  = Ok (dec_value (ip ++ fp) / 10 ^ (len fp - 7)).
Proof.
  intros Hip Hfp Hpos Hlen. split.
  - rewrite stellar_units_to_stroops_value by assumption.
    unfold zero_pad_right.
    replace (7 - length fp)%nat with 0%nat by lia.
    cbn [repeat]. rewrite app_nil_r. reflexivity.
  - unfold conversion.units_to_stroops, STELLAR_DECIMALS.
    rewrite d2i_point by (assumption || lia).
    rewrite truncated_value by assumption. f_equal.
    change (Z.of_nat (Z.to_nat 7)) with 7.
    replace (len fp) with (7 + (len fp - 7)) at 1 by lia.
    rewrite Z.pow_add_r by (unfold len; lia).
    rewrite (Z.mul_comm (dec_value (ip ++ fp)) (10 ^ 7)).
    apply Z.div_mul_cancel_l; apply Z.pow_nonzero; unfold len; lia.
Qed.

Lemma stellar_units_to_stroops_not_cut_witness :
  stellar_units.units_to_stroops (stellar_units.AmountStr (lit "1.123456789")) true
  = Ok (stellar_units.StroopsInt 1123456789) /\
  conversion.units_to_stroops (PStr (lit "1.123456789")) = Ok 11234567.
Proof.
  exact (stellar_units_to_stroops_not_cut (lit "1") (lit "123456789")
           eq_refl eq_refl eq_refl ltac:(vm_compute; lia)).
Defined.

(** The round trip of [stellar_units]: a positive number of stroops comes
    back from [stroops_to_units] and [units_to_stroops]; zero does not,
    ["0.0000000"] leaves no digit to read and [int] raises a ValueError
    (without [numeric_representation] the empty string is returned). *)
Theorem stellar_units_roundtrip :
  (forall n : Z,
      0 < n ->
      exists s,
        stellar_units.stroops_to_units (PInt n) false = Ok (stellar_units.UStr s) /\
        stellar_units.units_to_stroops (stellar_units.AmountStr s) true
        = Ok (stellar_units.StroopsInt n)) /\
  stellar_units.stroops_to_units (PInt 0) false
  = Ok (stellar_units.UStr (lit "0.0000000")) /\
  stellar_units.units_to_stroops (stellar_units.AmountStr (lit "0.0000000")) true
  = Raise ValueError /\
  stellar_units.units_to_stroops (stellar_units.AmountStr (lit "0.0000000")) false
  = Ok (stellar_units.StroopsStr []).
Proof.
  split; [|vm_compute; auto].
  intros n Hn.
  destruct (stroops_to_units_compared n ltac:(lia))
    as (ip & fp & E & Hl & Hip & Hfp & Hv & _).
  exists (ip ++ "." :: fp). split; [exact E|].
  rewrite stellar_units_to_stroops_value by (assumption || lia).
  unfold zero_pad_right. rewrite Hl. cbn [Nat.sub repeat].
  rewrite app_nil_r, Hv. reflexivity.
Qed.

Lemma stellar_units_roundtrip_witness :
  exists s,
    stellar_units.stroops_to_units (PInt 1230000) false = Ok (stellar_units.UStr s) /\
    stellar_units.units_to_stroops (stellar_units.AmountStr s) true
    = Ok (stellar_units.StroopsInt 1230000).
Proof. exact (proj1 stellar_units_roundtrip 1230000 ltac:(lia)). Defined.

(** ** The asset wrappers and malformed prices *)

(** The four wrappers fix 8, 18 and 7 decimals, so the number of places
    shifted back, [p + decimals - 2], is at least 5 whatever the price:
    each of them returns the exact value in cents rounded down or up, for a
    price made of digits with a point, an amount that is not negative and a
    value below [2 ^ 53] cents. *)
Theorem asset_to_euro_cents_within_a_cent (a : Z) (ip fp : str) :
  0 <= a -> all_digits ip = true -> all_digits fp = true ->
  let x := dec_value (ip ++ fp) * a in
  let price := ip ++ "." :: fp in
  let within (result : result Z) (decimals : Z) :=
    x < 2 ^ 53 * 10 ^ (len fp + decimals - 2) ->
    exists c, result = Ok c /\
              x / 10 ^ (len fp + decimals - 2) <= c
              <= x / 10 ^ (len fp + decimals - 2) + 1 in
  within (btc_to_euro_cents (PInt a) price) 8 /\
  within (eth_to_euro_cents (PInt a) price) 18 /\
  within (xlm_to_euro_cents (PInt a) price) 7 /\
  within (bul_to_euro_cents (PInt a) price) 7.
Proof.
  intros Ha Hip Hfp x price within. pose proof (len_nonneg fp) as Hl.
  assert (G : forall d, 3 <= d ->
            within (currency_to_euro_cents (PInt a) price d) d).
  { intros d Hd Hx.
    assert (HK : 0 < 10 ^ (len fp + d - 2)) by (apply Z.pow_pos_nonneg; lia).
    pose proof (Z.div_mod x (10 ^ (len fp + d - 2)) ltac:(lia)) as E.
    pose proof (Z.mod_pos_bound x (10 ^ (len fp + d - 2)) HK) as Hr.
    destruct (cte_between a ip fp d (x / 10 ^ (len fp + d - 2))
                (x / 10 ^ (len fp + d - 2) + 1) Ha Hip Hfp)
      as (c & Ec & Hc); fold x; try nia; try lia.
    exists c. split; [exact Ec | exact Hc]. }
  repeat split; apply G; lia.
Qed.

Lemma asset_to_euro_cents_within_a_cent_witness :
  exists c,
    btc_to_euro_cents (PInt 150000000) (lit "0.015") = Ok c /\ 2 <= c <= 3.
Proof.
  destruct (proj1 (asset_to_euro_cents_within_a_cent 150000000 (lit "0") (lit "015")
                     ltac:(lia) eq_refl eq_refl)
              ltac:(vm_compute; reflexivity)) as (c & Ec & Hc).
  exists c. split; [exact Ec | exact Hc].
Defined.

(** A price with two decimal points or more makes both euro-cents-to-stroops
    functions raise a ValueError for every int amount: the guard on the
    number of fractional digits lets it through and the conversion of the
    price refuses it. *)
Theorem euro_cents_to_stroops_two_points (a : Z) (price : str) :
  (2 <= count_occ ascii_dec price ".")%nat ->
  euro_cents_to_xlm_stroops (PInt a) price = Raise ValueError /\
  euro_cents_to_bul_stroops (PInt a) price = Raise ValueError.
Proof.
  intros H.
  assert (E : euro_cents_to_xlm_stroops (PInt a) price = Raise ValueError).
  { unfold euro_cents_to_xlm_stroops, STELLAR_DECIMALS.
    destruct (split_two "." price (contains_count_point price ltac:(lia)))
      as (p1 & p2 & rest & ->).
    cbn [index nth_error bind except_IndexError].
    rewrite d2i_int by (pose proof (len_nonneg p2); lia). cbn [bind].
    rewrite d2i_many_points by assumption. reflexivity. }
  split; exact E.
Qed.

Lemma euro_cents_to_stroops_two_points_witness :
  euro_cents_to_xlm_stroops (PInt 100) (lit "1.2.3") = Raise ValueError.
Proof.
  exact (proj1 (euro_cents_to_stroops_two_points 100 (lit "1.2.3")
                  ltac:(vm_compute; lia))).
Defined.

(** ** How [round (float _)] rounds *)

Lemma rne_div_near (a b : Z) :
  0 < b -> - b <= 2 * (rne_div a b * b - a) <= b.
Proof.
  intros Hb. unfold rne_div.
  pose proof (Z.div_mod a b ltac:(lia)) as E.
  pose proof (Z.mod_pos_bound a b Hb) as Hr.
  destruct (Z.ltb_spec (2 * (a mod b)) b) as [H1 | H1]; [nia|].
  destruct (Z.ltb_spec b (2 * (a mod b))) as [H2 | H2]; [nia|].
  destruct (Z.even (a / b)); nia.
Qed.

Lemma rne_div_exact (k b : Z) : 0 < b -> rne_div (k * b) b = k.
Proof.
  intros Hb. unfold rne_div.
  rewrite Z.div_mul, Z.mod_mul by lia.
  destruct (Z.ltb_spec (2 * 0) b); [reflexivity | lia].
Qed.

Lemma rne_div_small (m b : Z) : 0 <= m -> 4 * m <= b -> 0 < b -> rne_div m b = 0.
Proof.
  intros Hm H4 Hb. unfold rne_div.
  rewrite Z.div_small, Z.mod_small by lia.
  destruct (Z.ltb_spec (2 * m) b); [reflexivity | lia].
Qed.

Lemma rne_div_tie (q h : Z) :
  0 < h -> rne_div ((2 * q + 1) * h) (2 * h) = if Z.even q then q else q + 1.
Proof.
  intros Hh. unfold rne_div.
  assert (Eq : (2 * q + 1) * h / (2 * h) = q)
    by (symmetry; apply Z.div_unique with (r := h); lia).
  assert (Er : (2 * q + 1) * h mod (2 * h) = h)
    by (symmetry; apply Z.mod_unique with (q := q); lia).
  rewrite Eq, Er.
  destruct (Z.ltb_spec (2 * h) (2 * h)); [lia|]. reflexivity.
Qed.

Lemma floor_log2_ratio_lower (n d : Z) :
  0 < n -> 0 < d ->
  (0 <= floor_log2_ratio n d -> d * 2 ^ floor_log2_ratio n d <= n) /\
  (floor_log2_ratio n d < 0 -> d <= n * 2 ^ (- floor_log2_ratio n d)).
Proof.
  intros Hn Hd. unfold floor_log2_ratio.
  set (g := Z.log2 n - Z.log2 d).
  destruct (Z.log2_spec n Hn) as [Hn1 _].
  destruct (Z.log2_spec d Hd) as [_ Hd2].
  pose proof (Z.log2_nonneg n) as Ln. pose proof (Z.log2_nonneg d) as Ld.
  rewrite <- Z.add_1_r in Hd2.
  assert (P : forall j, 0 <= j -> 0 < 2 ^ j) by (intros; apply Z.pow_pos_nonneg; lia).
  destruct (Z.leb_spec 0 g) as [Hg | Hg].
  - destruct (Z.leb_spec (d * 2 ^ g) n) as [Ha | Ha].
    + split; [intros _; exact Ha | lia].
    + split.
      * intros H0.
        assert (E : 2 ^ Z.log2 n = 2 ^ (Z.log2 d + 1) * 2 ^ (g - 1)).
        { rewrite <- Z.pow_add_r by lia. f_equal. unfold g. lia. }
        pose proof (P (g - 1) H0). nia.
      * intros H0. assert (g = 0) by lia.
        replace (- (g - 1)) with 1 by lia. change (2 ^ 1) with 2.
        assert (E : Z.log2 n = Z.log2 d) by (unfold g in *; lia).
        rewrite E in Hn1. rewrite Z.pow_add_r in Hd2 by lia.
        change (2 ^ 1) with 2 in Hd2. lia.
  - destruct (Z.leb_spec d (n * 2 ^ (- g))) as [Ha | Ha].
    + split; [lia | intros _; exact Ha].
    + split; [lia|]. intros _.
      assert (E : 2 ^ (Z.log2 d + 1) = 2 ^ Z.log2 n * 2 ^ (- (g - 1))).
      { rewrite <- Z.pow_add_r by lia. f_equal. unfold g. lia. }
      pose proof (P (- (g - 1)) ltac:(lia)). nia.
Qed.

Lemma floor_log2_ratio_upper (n d : Z) :
  0 < n -> 0 < d ->
  (0 <= floor_log2_ratio n d + 1 -> n < d * 2 ^ (floor_log2_ratio n d + 1)) /\
  (floor_log2_ratio n d + 1 < 0 -> n * 2 ^ (- (floor_log2_ratio n d + 1)) < d).
Proof.
  intros Hn Hd. unfold floor_log2_ratio.
  set (g := Z.log2 n - Z.log2 d).
  destruct (Z.log2_spec n Hn) as [_ Hn2].
  destruct (Z.log2_spec d Hd) as [Hd1 _].
  pose proof (Z.log2_nonneg n) as Ln. pose proof (Z.log2_nonneg d) as Ld.
  rewrite <- Z.add_1_r in Hn2.
  assert (P : forall j, 0 <= j -> 0 < 2 ^ j) by (intros; apply Z.pow_pos_nonneg; lia).
  destruct (Z.leb_spec 0 g) as [Hg | Hg].
  - destruct (Z.leb_spec (d * 2 ^ g) n) as [Ha | Ha].
    + split; [|lia]. intros _.
      assert (E : 2 ^ (Z.log2 n + 1) = 2 ^ Z.log2 d * 2 ^ (g + 1)).
      { rewrite <- Z.pow_add_r by lia. f_equal. unfold g. lia. }
      pose proof (P (g + 1) ltac:(lia)). nia.
    + split; [|lia]. intros _.
      replace (g - 1 + 1) with g by lia. exact Ha.
  - destruct (Z.leb_spec d (n * 2 ^ (- g))) as [Ha | Ha].
    + split.
      * intros H0. assert (g = -1) by lia.
        replace (g + 1) with 0 by lia. rewrite Z.pow_0_r.
        assert (E : Z.log2 n + 1 = Z.log2 d) by (unfold g in *; lia).
        rewrite E in Hn2. lia.
      * intros H0.
        assert (E : 2 ^ Z.log2 d = 2 ^ (Z.log2 n + 1) * 2 ^ (- (g + 1))).
        { rewrite <- Z.pow_add_r by lia. f_equal. unfold g. lia. }
        pose proof (P (- (g + 1)) ltac:(lia)). nia.
    + split; [lia|]. intros _.
      replace (- (g - 1 + 1)) with (- g) by lia. exact Ha.
Qed.

(** Below [2 ^ 53] the int returned for the ratio [n / d] is within
    [1/2 + (n / d) / 2 ^ 53] of it: half a unit from the rounding to an
    int, the rest from the rounding to binary64. *)
Lemma round_binary64_near (n d : Z) :
  0 <= n -> 0 < d -> n < d * 2 ^ 53 ->
  exists c,
    round (binary64_of_ratio false n d) = Ok c /\
    - (2 ^ 52 * d + n) <= 2 ^ 53 * (c * d - n) <= 2 ^ 52 * d + n.
Proof.
  intros Hn Hd Hlt. unfold binary64_of_ratio.
  change (2 ^ 53) with (2 * 2 ^ 52) in *.
  set (T := 2 ^ 52) in *.
  assert (HT : 0 < T) by (unfold T; apply Z.pow_pos_nonneg; lia).
  destruct (Z.eqb_spec n 0) as [-> | Hnz].
  - exists 0. split; [reflexivity|]. nia.
  - assert (Hfl : floor_log2_ratio n d <= 52)
      by (apply floor_log2_ratio_le; try lia; change (2 ^ (52 + 1)) with (2 * T); lia).
    set (fl := floor_log2_ratio n d) in *.
    set (e := Z.max (fl - 52) (-1074)).
    assert (He : -1074 <= e <= 0) by (unfold e; lia).
    replace ((971 <? e) || ((e =? 971) && (_ =? 2 * T))) with false.
    2: { destruct (Z.ltb_spec 971 e); [lia|].
         destruct (Z.eqb_spec e 971); [lia | reflexivity]. }
    cbn [round].
    destruct (Z.leb_spec 0 e) as [He0 | He0].
    + assert (E0 : e = 0) by lia. rewrite E0. change (2 ^ 0) with 1.
      exists (rne_div n (d * 1) * 1). split; [reflexivity|].
      pose proof (rne_div_near n (d * 1) ltac:(lia)) as N. nia.
    + set (b := 2 ^ (- e)).
      assert (Hb : 0 < b) by (apply Z.pow_pos_nonneg; lia).
      set (m := rne_div (n * b) d).
      exists (rne_div m b). split; [reflexivity|].
      destruct (Z.lt_ge_cases (4 * n) d) as [Hsmall | Hbig].
      * assert (Hfl0 : fl <= 0)
          by (apply floor_log2_ratio_le; try lia; change (2 ^ (0 + 1)) with 2; lia).
        assert (Eb : b = 4 * 2 ^ (- e - 2)).
        { unfold b. replace (- e) with (2 + (- e - 2)) at 1 by lia.
          rewrite Z.pow_add_r by (unfold e; lia). reflexivity. }
        assert (HC : 0 < 2 ^ (- e - 2)) by (apply Z.pow_pos_nonneg; unfold e; lia).
        assert (Hm0 : 0 <= m) by (apply rne_div_lower; nia).
        assert (Hm1 : m <= 2 ^ (- e - 2)) by (apply rne_div_upper; nia).
        rewrite rne_div_small by lia. nia.
      * destruct (floor_log2_ratio_upper n d ltac:(lia) Hd) as [_ U].
        destruct (floor_log2_ratio_lower n d ltac:(lia) Hd) as [L1 L2].
        fold fl in U, L1, L2.
        assert (Hfl2 : -3 <= fl).
        { destruct (Z.lt_ge_cases fl (-3)) as [Hc | Hc]; [|exact Hc].
          specialize (U ltac:(lia)).
          assert (E : 2 ^ (- (fl + 1)) = 4 * 2 ^ (- (fl + 1) - 2)).
          { replace (- (fl + 1)) with (2 + (- (fl + 1) - 2)) at 1 by lia.
            rewrite Z.pow_add_r by lia. reflexivity. }
          assert (0 < 2 ^ (- (fl + 1) - 2)) by (apply Z.pow_pos_nonneg; lia).
          nia. }
        assert (Ee : - e = 52 - fl) by (unfold e; lia).
        assert (HL : d * T <= n * b).
        { unfold b. rewrite Ee.
          destruct (Z.lt_ge_cases fl 0) as [Hneg | Hpos].
          - specialize (L2 Hneg).
            replace (52 - fl) with (52 + - fl) by lia.
            rewrite Z.pow_add_r by lia. fold T. nia.
          - specialize (L1 Hpos).
            assert (ET : T = 2 ^ (52 - fl) * 2 ^ fl).
            { unfold T. rewrite <- Z.pow_add_r by lia. f_equal. lia. }
            assert (0 < 2 ^ (52 - fl)) by (apply Z.pow_pos_nonneg; lia).
            rewrite ET. nia. }
        pose proof (rne_div_near (n * b) d Hd) as N1. fold m in N1.
        pose proof (rne_div_near m b Hb) as N2.
        set (c := rne_div m b) in *.
        assert (G1 : 2 * T * (c * d - n) * b <= (T * d + n) * b).
        { replace (2 * T * (c * d - n) * b)
            with (T * d * (2 * (c * b - m)) + T * (2 * (m * d - n * b))) by ring.
          nia. }
        assert (G2 : - ((T * d + n) * b) <= 2 * T * (c * d - n) * b).
        { replace (2 * T * (c * d - n) * b)
            with (T * d * (2 * (c * b - m)) + T * (2 * (m * d - n * b))) by ring.
          nia. }
        split; nia.
Qed.

(** An exact half below [2 ^ 52] is represented exactly and goes to the
    even neighbour. *)
Lemma round_binary64_tie (n d q : Z) :
  0 < d -> 0 <= n -> n < d * 2 ^ 52 -> 2 * n = (2 * q + 1) * d ->
  round (binary64_of_ratio false n d) = Ok (if Z.even q then q else q + 1).
Proof.
  intros Hd Hn Hlt Hhalf. unfold binary64_of_ratio.
  destruct (Z.eqb_spec n 0) as [E0 | Hnz].
  { exfalso. subst n. assert (2 * q + 1 = 0) by nia. lia. }
  assert (Hfl : floor_log2_ratio n d <= 51)
    by (apply floor_log2_ratio_le; try lia; exact Hlt).
  set (e := Z.max (floor_log2_ratio n d - 52) (-1074)).
  assert (He : -1074 <= e <= -1) by (unfold e; lia).
  replace ((971 <? e) || ((e =? 971) && (_ =? 2 ^ 53))) with false.
  2: { destruct (Z.ltb_spec 971 e); [lia|].
       destruct (Z.eqb_spec e 971); [lia | reflexivity]. }
  cbn [round].
  destruct (Z.leb_spec 0 e) as [He0 | He0]; [lia|].
  set (h := 2 ^ (- e - 1)).
  assert (Hh : 0 < h) by (apply Z.pow_pos_nonneg; lia).
  assert (Eb : 2 ^ (- e) = 2 * h).
  { unfold h. replace (- e) with (1 + (- e - 1)) at 1 by lia.
    rewrite Z.pow_add_r by lia. reflexivity. }
  rewrite Eb.
  replace (n * (2 * h)) with ((2 * q + 1) * h * d) by nia.
  rewrite rne_div_exact by assumption.
  rewrite rne_div_tie by assumption. reflexivity.
Qed.

(** ** [currency_to_euro_cents] and the exact value in cents *)

(** For a price made of digits, with [p + decimals - 2 >= 1], the cents are
    read from a ratio [V / D] that is the exact value
    [price * amount / 10 ^ (p + decimals - 2)]. *)
Lemma cte_as_ratio (a : Z) (ip fp : str) (d : Z) :
  0 <= a -> all_digits ip = true -> all_digits fp = true ->
  1 <= len fp + d - 2 ->
  exists V D,
    0 <= V /\ 0 < D /\
    V * 10 ^ (len fp + d - 2) = dec_value (ip ++ fp) * a * D /\
    currency_to_euro_cents (PInt a) (ip ++ "." :: fp) d
    = round (binary64_of_ratio false V D).
Proof.
  intros Ha Hip Hfp Hk.
  assert (Hx0 : 0 <= dec_value (ip ++ fp) * a).
  { apply Z.mul_nonneg_nonneg; [|assumption].
    apply dec_value_bounds. rewrite all_digits_app, Hip, Hfp. reflexivity. }
  destruct (i2d_contract_int _ _ Hx0 Hk)
    as (ci & cf & Ei & _ & _ & Hci & Hcf & Nci & Hz & Hv).
  assert (Ncf : cf <> []).
  { destruct Hz as [-> | Hz]; [discriminate|]. intros ->. apply Hz. reflexivity. }
  exists (dec_value (ci ++ cf)), (10 ^ len cf). repeat split.
  - apply dec_value_bounds. rewrite all_digits_app, Hci, Hcf. reflexivity.
  - apply Z.pow_pos_nonneg; [lia | apply len_nonneg].
  - exact Hv.
  - unfold currency_to_euro_cents.
    rewrite split_at_sep, split_no_sep by (apply digits_no_point; assumption).
    cbn [index nth_error bind].
    rewrite d2i_point_wide by (assumption || lia).
    rewrite Z.sub_diag, Z.mul_1_r. cbn [bind int_mul].
    rewrite Ei. cbn [bind]. unfold round_float.
    rewrite float_of_decimal by assumption. reflexivity.
Qed.

(** C4, as the code has it: for an int amount that is not negative and a
    price ["ip.fp"] made of digits with [p] fractional digits, when
    [p + decimals - 2 >= 1], [currency_to_euro_cents] is
    [round (float (indivisible_to_divisible (divisible_to_indivisible
    (price, p) * amount, p + decimals - 2)))]: the fictitious integer price
    is read from all the digits of the price, the product is exact, and the
    string that is rounded denotes [x = price * amount / 10 ^ (p + decimals
    - 2)] exactly.  The string is read as a binary64 float and the float
    rounded half to even: below [2 ^ 53] the result [c] is the floor of [x]
    or the floor plus one, within [1/2 + x / 2 ^ 53] of [x] (so the nearest
    integer unless [x] is that close to a half), [x] itself when [x] is
    whole, and below [2 ^ 52] the even neighbour when [x] is an exact
    half. *)
Theorem C4_currency_to_euro_cents_pipeline (amount : Z) (ip fp : str) (d : Z) :
  0 <= amount -> all_digits ip = true -> all_digits fp = true ->
  1 <= len fp + d - 2 ->
  let eur_price := ip ++ "." :: fp in
  let p := len fp in
  let x := dec_value (ip ++ fp) * amount in
  let K := 10 ^ (p + d - 2) in
  currency_to_euro_cents (PInt amount) eur_price d
  = (price <- divisible_to_indivisible (PStr eur_price) p ;;
     euro_cents <- indivisible_to_divisible (PInt (price * amount)) (p + d - 2) ;;
     round_float euro_cents) /\
  divisible_to_indivisible (PStr eur_price) p = Ok (dec_value (ip ++ fp)) /\
  (exists ci cf,
      indivisible_to_divisible (PInt x) (p + d - 2) = Ok (ci ++ "." :: cf) /\
      all_digits ci = true /\ all_digits cf = true /\
      dec_value (ci ++ cf) * K = x * 10 ^ len cf) /\
  (x < 2 ^ 53 * K ->
   exists c,
     currency_to_euro_cents (PInt amount) eur_price d = Ok c /\
     x / K <= c <= x / K + 1 /\
     2 ^ 53 * Z.abs (c * K - x) <= 2 ^ 52 * K + x /\
     (x mod K = 0 -> c = x / K)) /\
  (forall q : Z,
      x < 2 ^ 52 * K -> 2 * x = (2 * q + 1) * K ->
      currency_to_euro_cents (PInt amount) eur_price d
      = Ok (if Z.even q then q else q + 1)).
Proof.
  intros Ha Hip Hfp Hk eur_price p x K.
  assert (HK : 0 < K) by (apply Z.pow_pos_nonneg; unfold p; lia).
  assert (Hx0 : 0 <= x).
  { apply Z.mul_nonneg_nonneg; [|assumption].
    apply dec_value_bounds. rewrite all_digits_app, Hip, Hfp. reflexivity. }
  assert (Ep : divisible_to_indivisible (PStr eur_price) p
               = Ok (dec_value (ip ++ fp))).
  { unfold eur_price, p. rewrite d2i_point_wide by (assumption || lia).
    rewrite Z.sub_diag. f_equal. lia. }
  destruct (cte_as_ratio amount ip fp d Ha Hip Hfp Hk)
    as (V & D & HV & HD & EV & Ec).
  fold x p K eur_price in EV, Ec.
  split; [|split; [exact Ep | split; [|split]]].
  - unfold currency_to_euro_cents, eur_price.
    rewrite split_at_sep, split_no_sep by (apply digits_no_point; assumption).
    reflexivity.
  - destruct (i2d_contract_int x (p + d - 2) Hx0 Hk)
      as (ci & cf & Ei & _ & _ & Hci & Hcf & _ & _ & Hv).
    exists ci, cf. repeat split; assumption.
  - intros Hx.
    assert (HVD : V < D * 2 ^ 53).
    { apply (Z.mul_lt_mono_pos_r K); [assumption|]. rewrite EV. nia. }
    destruct (round_binary64_near V D HV HD HVD) as (c & Er & Hnear).
    exists c. split; [rewrite Ec; exact Er|].
    pose proof (Z.div_mod x K ltac:(lia)) as Edm.
    pose proof (Z.mod_pos_bound x K HK) as Hr.
    assert (Hfloor : x / K <= c <= x / K + 1 /\ (x mod K = 0 -> c = x / K)).
    { destruct (Z.eq_dec (x mod K) 0) as [Hz | Hnz].
      - destruct (round_binary64_bounds V D (x / K) (x / K) HV HD HVD)
          as (c' & Er' & Hc').
        + apply (Z.mul_le_mono_pos_r _ _ K); [assumption|]. rewrite EV. nia.
        + apply (Z.mul_le_mono_pos_r _ _ K); [assumption|]. rewrite EV. nia.
        + rewrite Er in Er'. injection Er' as <-. lia.
      - destruct (round_binary64_bounds V D (x / K) (x / K + 1) HV HD HVD)
          as (c' & Er' & Hc').
        + apply (Z.mul_le_mono_pos_r _ _ K); [assumption|]. rewrite EV. nia.
        + apply (Z.mul_le_mono_pos_r _ _ K); [assumption|]. rewrite EV. nia.
        + rewrite Er in Er'. injection Er' as <-. lia. }
    split; [apply Hfloor | split; [|apply Hfloor]].
    assert (G : - (2 ^ 52 * K + x) <= 2 ^ 53 * (c * K - x) <= 2 ^ 52 * K + x).
    { assert (G1 : 2 ^ 53 * (c * K - x) * D = 2 ^ 53 * (c * D - V) * K)
        by (replace (2 ^ 53 * (c * D - V) * K)
              with (2 ^ 53 * (c * D * K - V * K)) by ring; rewrite EV; ring).
      assert (G2 : (2 ^ 52 * K + x) * D = (2 ^ 52 * D + V) * K)
        by (replace ((2 ^ 52 * D + V) * K)
              with (2 ^ 52 * D * K + V * K) by ring; rewrite EV; ring).
      split.
      - apply (Z.mul_le_mono_pos_r _ _ D); [assumption|].
        rewrite Z.mul_opp_l, G1, G2, <- Z.mul_opp_l.
        apply Z.mul_le_mono_nonneg_r; lia.
      - apply (Z.mul_le_mono_pos_r _ _ D); [assumption|].
        rewrite G1, G2. apply Z.mul_le_mono_nonneg_r; lia. }
    destruct (Z.abs_spec (c * K - x)) as [[_ ->] | [_ ->]]; lia.
  - intros q Hx Hhalf. rewrite Ec.
    apply round_binary64_tie; try assumption.
    + apply (Z.mul_lt_mono_pos_r K); [assumption|]. rewrite EV. nia.
    + apply (Z.mul_reg_r _ _ K); [lia|].
      replace (2 * V * K) with (2 * (V * K)) by ring. rewrite EV.
      replace (2 * (x * D)) with (2 * x * D) by ring. rewrite Hhalf. ring.
Qed.

Lemma C4_witness :
  currency_to_euro_cents (PInt 250000000) (lit "0.01") 8 = Ok 2 /\
  (exists c,
      currency_to_euro_cents (PInt 150000000) (lit "0.015") 8 = Ok c /\
      2 <= c <= 3 /\ 2 ^ 53 * Z.abs (c * 10 ^ 9 - 2250000000) <= 2 ^ 52 * 10 ^ 9 + 2250000000).
Proof.
  split.
  - destruct (C4_currency_to_euro_cents_pipeline 250000000 (lit "0") (lit "01") 8
                ltac:(lia) eq_refl eq_refl ltac:(vm_compute; discriminate))
      as (_ & _ & _ & _ & H).
    exact (H 2 ltac:(vm_compute; reflexivity) ltac:(vm_compute; reflexivity)).
  - destruct (C4_currency_to_euro_cents_pipeline 150000000 (lit "0") (lit "015") 8
                ltac:(lia) eq_refl eq_refl ltac:(vm_compute; discriminate))
      as (_ & _ & _ & H & _).
    destruct (H ltac:(vm_compute; reflexivity)) as (c & Ec & Hc & Hn & _).
    exists c. split; [exact Ec | split; [exact Hc | exact Hn]].
Defined.

(** C4, as the specification has it: the result is not always the integer
    nearest to the shifted product.  For 149999999999999999 wei at 0.1 EUR
    the value is 1.49999999999999999 cents, which [float] reads as 1.5, and
    the result is 2.  (And with [p + decimals - 2 = 0] the product is not
    shifted by zero places: 5 units of one decimal at 1.5 EUR are 75 cents
    and the result is 1.) *)
Lemma C4_counterexample :
  ~ (exists c,
        currency_to_euro_cents (PInt 149999999999999999) (lit "0.1") 18 = Ok c /\
        2 * Z.abs (c * 10 ^ (1 + 18 - 2) - 1 * 149999999999999999)
        <= 10 ^ (1 + 18 - 2)) /\
  ~ (exists c,
        currency_to_euro_cents (PInt 5) (lit "1.5") 1 = Ok c /\
        2 * Z.abs (c * 10 ^ (1 + 1 - 2) - 15 * 5) <= 10 ^ (1 + 1 - 2)).
Proof.
  split; intros (c & E & H); vm_compute in E; injection E as <-;
    vm_compute in H; apply H; reflexivity.
Qed.
